(** * Audiobook market research tool: the keyword pipeline, ranking and export

    A shallow embedding of [src/app/page.js] (component
    [AudiobookResearchTool]): [handleSearch], [getOpportunityScore],
    [avgPopularityScore], [sortedByOpportunity], [topOpportunities] and
    [downloadCSV]; then [requestAccessToken], the summary cards, the chart
    cells, and, from the second version of the page and the route
    [/api/token] ([src/unnamed/part_001]), the "All Results" table and
    [handler].

    Modelling conventions.
    - JavaScript numbers that the component handles are integers (counts,
      popularity values, HTTP status codes): they are modelled as [Z].
      [Math.round (n / d)] is modelled on exact rationals by [round_div];
      the quotient and the product of [getOpportunityScore] are rounded
      to doubles as JavaScript rounds them.
    - JavaScript strings are modelled as [string], one character per code
      unit below 256.
    - An object property that may be missing is an [option]; [None] is
      JavaScript's [undefined].
    - React state is an explicit record [State]; an event handler is a
      function of the state captured by the render that created it, and
      returns the state after all of its [set...] calls. *)

From Stdlib Require Import ZArith List String Ascii Bool Lia.
From Stdlib Require Import Permutation Sorted DecimalString.
Import ListNotations.
Open Scope string_scope.
Open Scope Z_scope.

(* ================================================================== *)
(** ** JavaScript primitives used by the component *)

(** [Math.round (n / d)] for integers [n] and [d <> 0]: the nearest
    integer, halves going towards plus infinity ([floor (n/d + 1/2)]).
    The quotient is taken exactly, where JavaScript rounds it to a double
    first: a quotient of two integers that is half an integer is a double,
    and any other is further from the half integers than its double is
    from it. *)
Definition round_div (n d : Z) : Z := (2 * n + d) / (2 * d).

(** [v || d] on a possibly missing number: [undefined] and [0] are falsy. *)
Definition or_default (v : option Z) (d : Z) : Z :=
  match v with
  | None => d
  | Some 0 => d
  | Some n => n
  end.

(** Truthiness of a possibly missing string ([r.error ? .. : ..]). *)
Definition truthy (e : option string) : bool :=
  match e with
  | Some (String _ _) => true
  | _ => false
  end.

(** Number to string conversion of an integer ([`${n}`], ['+' + n]). *)
Definition numToString (n : Z) : string :=
  NilZero.string_of_int (Z.to_int n).

(** White space and line terminators removed by [String.prototype.trim],
    among the code units below 256: TAB, LF, VT, FF, CR, SP, NBSP. *)
Definition is_ws (c : ascii) : bool :=
  let n := nat_of_ascii c in
  (Nat.eqb n 9 || Nat.eqb n 10 || Nat.eqb n 11 || Nat.eqb n 12
   || Nat.eqb n 13 || Nat.eqb n 32 || Nat.eqb n 160)%bool.

Fixpoint trimStart (s : string) : string :=
  match s with
  | EmptyString => EmptyString
  | String c s' => if is_ws c then trimStart s' else s
  end.

Fixpoint trimEnd (s : string) : string :=
  match s with
  | EmptyString => EmptyString
  | String c s' =>
      match trimEnd s' with
      | EmptyString => if is_ws c then EmptyString else String c EmptyString
      | t => String c t
      end
  end.

Definition trim (s : string) : string := trimEnd (trimStart s).

Definition newline : ascii := ascii_of_nat 10.

(** [s.split('\n')]: always at least one piece. *)
Fixpoint split_lines (s : string) : list string :=
  match s with
  | EmptyString => [EmptyString]
  | String c s' =>
      if Ascii.eqb c newline then EmptyString :: split_lines s'
      else match split_lines s' with
           | [] => [String c EmptyString]
           | l :: ls => String c l :: ls
           end
  end.

Definition nonempty (s : string) : bool :=
  match s with
  | EmptyString => false
  | String _ _ => true
  end.

(** [arr.join(sep)] on strings. *)
Definition join (sep : string) (l : list string) : string :=
  String.concat sep l.

(* ================================================================== *)
(** ** The search endpoint, as the component sees it *)

Module Api.

(** One returned item; [popularity] may be missing. *)
Record book := { popularity : option Z }.

(** [data.audiobooks]: the page of items and the reported total. *)
Record page := { items : option (list book); total : option Z }.

(** The parsed response body, [data]. *)
Record body := { audiobooks : option page }.

(** [await response.json()]: the parsed body, or a rejection. *)
Inductive json_result :=
| JsonOk (data : body)
| JsonThrows (message : string).

(** [await fetch(...)]: a rejection (network failure) or a response with
    its status code and its body. *)
Inductive fetch_result :=
| FetchThrows (message : string)
| Response (status : Z) (json : json_result).

(** [response.ok]: a status in the range 200..299. *)
Definition ok (status : Z) : bool := (200 <=? status) && (status <=? 299).

End Api.

(** The environment of one run: the outcome of the [i]-th request (counted
    from 0) for a keyword. *)
Definition Fetch := nat -> string -> Api.fetch_result.

(* ================================================================== *)
(** ** Results and component state *)

(** One element of [results].  A row pushed by the success path has no
    [error]; a row pushed by the [catch] block has no [popularityTrend],
    [supplyTrend], [x], [y], [size]. *)
Record Result := {
  keyword : string;
  audiobooks : Z;
  avgPopularity : Z;
  estimatedTrendsInterest : Z;
  popularityTrend : option Z;
  supplyTrend : option Z;
  error : option string;
  timestamp : string;
  x : option Z;
  y : option Z;
  size : option Z
}.

(** The [useState] cells read or written by [handleSearch].  The banner
    text (source: [error]) is named [errorText], the name [error] being the
    row property.  [progress], a percentage computed in floating point, is
    not modelled. *)
Record State := {
  accessToken : string;
  keywords : string;
  results : list Result;
  previousResults : list Result;
  isSearching : bool;
  errorText : string;
  showMatrix : bool
}.

Definition setError (st : State) (msg : string) : State :=
  {| accessToken := accessToken st; keywords := keywords st;
     results := results st; previousResults := previousResults st;
     isSearching := isSearching st; errorText := msg;
     showMatrix := showMatrix st |}.

(** The state of a freshly mounted component, with a token and a keyword
    text typed in. *)
Definition mounted (token kws : string) : State :=
  {| accessToken := token; keywords := kws; results := [];
     previousResults := []; isSearching := false; errorText := EmptyString;
     showMatrix := false |}.

(** The user edits the keyword text between two runs. *)
Definition setKeywords (st : State) (kws : string) : State :=
  {| accessToken := accessToken st; keywords := kws;
     results := results st; previousResults := previousResults st;
     isSearching := isSearching st; errorText := errorText st;
     showMatrix := showMatrix st |}.

(* ================================================================== *)
(** ** [handleSearch] *)

(** [keywords.split('\n').map(k => k.trim()).filter(k => k.length > 0)] *)
Definition keywordList (text : string) : list string :=
  filter nonempty (map trim (split_lines text)).

(** [audiobooks.reduce((sum, book) => sum + (book.popularity || 50), 0)] *)
Definition popularitySum (books : list Api.book) : Z :=
  fold_left (fun sum book => sum + or_default (Api.popularity book) 50) books 0.

(** Lines 107-109. *)
Definition computeAvgPopularity (books : list Api.book) : Z :=
  if (0 <? Z.of_nat (List.length books))
  then round_div (popularitySum books) (Z.of_nat (List.length books))
  else 50.

(** Line 111: [Math.min(100, Math.round(count / 5))]. *)
Definition computeTrendsInterest (count : Z) : Z :=
  Z.min 100 (round_div count 5).

(** [previousResults.find(r => r.keyword === keyword)] *)
Definition findPrev (prev : list Result) (kw : string) : option Result :=
  find (fun r => String.eqb (keyword r) kw) prev.

(** Lines 103-128: the row pushed after a successful response.  The
    locals [audiobooks], [avgPopularity], [estimatedTrendsInterest] of the
    source are [books], [avg], [interest] here. *)
Definition okResult (prev : list Result) (today kw : string)
  (data : Api.body) : Result :=
  let books :=
    match Api.audiobooks data with
    | Some p => match Api.items p with Some l => l | None => [] end
    | None => []
    end in
  let count :=
    or_default (match Api.audiobooks data with
                | Some p => Api.total p
                | None => None
                end) 0 in
  let avg := computeAvgPopularity books in
  let interest := computeTrendsInterest count in
  let prevResult := findPrev prev kw in
  {| keyword := kw;
     audiobooks := count;
     avgPopularity := avg;
     estimatedTrendsInterest := interest;
     popularityTrend :=
       Some (match prevResult with
             | Some p => avg - avgPopularity p
             | None => 0
             end);
     supplyTrend :=
       Some (match prevResult with
             | Some p => count - audiobooks p
             | None => 0
             end);
     error := None;
     timestamp := today;
     x := Some count;
     y := Some interest;
     size := Some (avg * 2) |}.

(** Lines 135-142: the row pushed by the [catch] block. *)
Definition failedResult (today kw message : string) : Result :=
  {| keyword := kw;
     audiobooks := -1;
     avgPopularity := 0;
     estimatedTrendsInterest := 0;
     popularityTrend := None;
     supplyTrend := None;
     error := Some message;
     timestamp := today;
     x := None;
     y := None;
     size := None |}.

(** The body of the [for] loop for one keyword and the outcome of its
    request: [None] is the [return] of line 98 (status 401), [Some r] the
    row pushed on [searchResults]. *)
Definition searchOne (prev : list Result) (today kw : string)
  (resp : Api.fetch_result) : option Result :=
  match resp with
  | Api.FetchThrows message => Some (failedResult today kw message)
  | Api.Response status json =>
      if negb (Api.ok status) then
        if status =? 401 then None
        else Some (failedResult today kw ("API error: " ++ numToString status))
      else
        match json with
        | Api.JsonThrows message => Some (failedResult today kw message)
        | Api.JsonOk data => Some (okResult prev today kw data)
        end
  end.

(** The request was answered with status 401 ([response.status === 401]
    on a response that is not [ok]). *)
Definition unauthorized (resp : Api.fetch_result) : bool :=
  match resp with
  | Api.Response status _ => status =? 401
  | Api.FetchThrows _ => false
  end.

(** The message caught by the [catch] block when the request fails
    otherwise: the rejection of [fetch], the error thrown at line 100, or
    the rejection of [response.json()]. *)
Definition failureMessage (resp : Api.fetch_result) : option string :=
  match resp with
  | Api.FetchThrows message => Some message
  | Api.Response status json =>
      if Api.ok status then
        match json with
        | Api.JsonThrows message => Some message
        | Api.JsonOk _ => None
        end
      else if status =? 401 then None
      else Some ("API error: " ++ numToString status)
  end.

(** Lines 80-146: the loop from index [i] on, over the keywords not yet
    searched; the result is [searchResults] and whether line 98 returned. *)
Fixpoint searchLoop (prev : list Result) (today : string) (fetch : Fetch)
  (i : nat) (kws : list string) (searchResults : list Result)
  : list Result * bool :=
  match kws with
  | [] => (searchResults, false)
  | kw :: rest =>
      match searchOne prev today kw (fetch i kw) with
      | None => (searchResults, true)
      | Some r => searchLoop prev today fetch (S i) rest (searchResults ++ [r])
      end
  end.

(** Lines 56-150.  [st] is the state captured by the render whose button
    was clicked: [results st] and [previousResults st] are the constants
    [results] and [previousResults] of that render, whatever [set...] calls
    the handler makes.  [today] is [new Date().toLocaleDateString()]. *)
Definition handleSearch (st : State) (today : string) (fetch : Fetch) : State :=
  if negb (nonempty (trim (accessToken st))) then
    setError st "Please request an access token first"
  else
    let kws := keywordList (keywords st) in
    if Nat.eqb (List.length kws) 0 then
      setError st "Please enter at least one keyword"
    else
      let '(searchResults, expired) :=
        searchLoop (previousResults st) today fetch 0 kws [] in
      {| accessToken := accessToken st;
         keywords := keywords st;
         results := searchResults;
         previousResults := results st;
         isSearching := false;
         errorText :=
           if expired then "Token expired. Request a new one."
           else EmptyString;
         showMatrix := if expired then showMatrix st else true |}.

(* ================================================================== *)
(** ** Aggregation and ranking *)

(** *** Double precision

    [demand / (supply + 1) * 100] is computed on doubles (IEEE 754
    binary64): the quotient is rounded to the nearest double, a tie going
    to the even significand, and so is the product.  A double is given
    here by a pair [(m, e)] that stands for [m * 2 ^ e]; the doubles that
    are not zero have [2 ^ 52 <= |m| <= 2 ^ 53].  Integers are doubles as
    they are (they are, below [2 ^ 53]).  The exponent is not bounded:
    overflow and underflow, out of the reach of counts, are not modelled. *)

(** [x * 2 ^ e] for [0 <= e], and [x] otherwise. *)
Definition scaleUp (x e : Z) : Z := x * 2 ^ Z.max 0 e.

(** The integer nearest to [n / d], for [0 <= n] and [0 < d], a tie going
    to the even one. *)
Definition nearestEven (n d : Z) : Z :=
  let q := n / d in
  let r := n mod d in
  if 2 * r <? d then q
  else if d <? 2 * r then q + 1
  else if Z.even q then q else q + 1.

(** The exponent [e] of the double nearest to [n / d], for [0 < n] and
    [0 < d]: the one with [2 ^ 52 <= n / (d * 2 ^ e) < 2 ^ 53]. *)
Definition exponent (n d : Z) : Z :=
  let k := Z.log2 n - Z.log2 d in
  (if scaleUp n (- k) <? scaleUp d k then k - 1 else k) - 52.

(** The double nearest to the rational [n / d], for [0 < d]. *)
Definition toDouble (n d : Z) : Z * Z :=
  if n =? 0 then (0, 0)
  else
    let e := exponent (Z.abs n) d in
    (Z.sgn n * nearestEven (scaleUp (Z.abs n) (- e)) (scaleUp d e), e).

(** A double [(m, e)] as a fraction with a positive denominator. *)
Definition numerator (x : Z * Z) : Z := scaleUp (fst x) (snd x).

Definition denominator (x : Z * Z) : Z := scaleUp 1 (- snd x).

(** [a / b] on two integers, [b <> 0]. *)
Definition divide (a b : Z) : Z * Z := toDouble (a * Z.sgn b) (Z.abs b).

(** [x * c] on a double and an integer. *)
Definition times (x : Z * Z) (c : Z) : Z * Z :=
  toDouble (numerator x * c) (denominator x).

(** [Math.round (x)] on a double. *)
Definition Math_round (x : Z * Z) : Z :=
  round_div (numerator x) (denominator x).

(** Lines 177-182.  [None] is [null].  Where [supply + 1] is 0, on a row
    without error whose [audiobooks] is [-1], JavaScript gives [NaN] or an
    infinity, which are no integers: that case is outside the model, and
    the statements about scores assume [0 <= audiobooks]. *)
Definition getOpportunityScore (item : Result) : option Z :=
  if truthy (error item) then None
  else
    let supply := audiobooks item in
    let demand := estimatedTrendsInterest item in
    Some (Math_round (times (divide demand (supply + 1)) 100)).

(** [results.filter(r => !r.error)] *)
Definition withoutError (rs : list Result) : list Result :=
  filter (fun r => negb (truthy (error r))) rs.


(** [results.reduce((sum, r) => sum + (r.avgPopularity || 0), 0)] *)
Definition popularityTotal (rs : list Result) : Z :=
  fold_left (fun sum r => sum + or_default (Some (avgPopularity r)) 0) rs 0.

(** Lines 185-187.  [None] stands for the non-finite value ([NaN] or an
    infinity) that the division by a zero count of rows without error
    gives. *)
Definition avgPopularityScore (rs : list Result) : option Z :=
  if (0 <? Z.of_nat (List.length rs)) then
    let valid := Z.of_nat (List.length (withoutError rs)) in
    if valid =? 0 then None
    else Some (round_div (popularityTotal rs) valid)
  else Some 0.

(** Line 188. *)
Definition validResults (rs : list Result) : nat := List.length (withoutError rs).

(** [getOpportunityScore(a) || -1]: [null] and [0] are falsy. *)
Definition scoreOrMinusOne (a : Result) : Z :=
  match getOpportunityScore a with
  | None => -1
  | Some 0 => -1
  | Some s => s
  end.

(** The comparator of line 190-194. *)
Definition compareFn (a b : Result) : Z :=
  let scoreA := scoreOrMinusOne a in
  let scoreB := scoreOrMinusOne b in
  scoreB - scoreA.

(** [Array.prototype.sort] is stable: [a], which comes before every element
    of [l], stays before the elements it does not compare greater than. *)
Fixpoint insertSorted (cmp : Result -> Result -> Z) (a : Result)
  (l : list Result) : list Result :=
  match l with
  | [] => [a]
  | b :: l' =>
      if cmp a b <=? 0 then a :: l else b :: insertSorted cmp a l'
  end.

Definition stableSort (cmp : Result -> Result -> Z) (l : list Result)
  : list Result :=
  fold_right (insertSorted cmp) [] l.

(** Lines 190-194. *)
Definition sortedByOpportunity (rs : list Result) : list Result :=
  stableSort compareFn rs.

(** Line 196. *)
Definition topOpportunities (rs : list Result) : list Result :=
  firstn 10 (withoutError (sortedByOpportunity rs)).

(* ================================================================== *)
(** ** [downloadCSV] *)

(** A cell of a row before it is converted to a string. *)
Inductive Cell :=
| CStr (s : string)
| CNum (n : Z)
| CUndefined.

(** The conversion made by the template literal. *)
Definition cellToString (c : Cell) : string :=
  match c with
  | CStr s => s
  | CNum n => numToString n
  | CUndefined => "undefined"
  end.

(** [t > 0 ? '+' + t : t] *)
Definition trendCell (t : option Z) : Cell :=
  match t with
  | Some n => if 0 <? n then CStr ("+" ++ numToString n) else CNum n
  | None => CUndefined
  end.

(** Lines 154-162. *)
Definition csvCells (r : Result) : list Cell :=
  let failed := truthy (error r) in
  [ CStr (keyword r);
    if failed then CStr "Error" else CNum (audiobooks r);
    if failed then CStr "-" else CNum (avgPopularity r);
    if failed then CStr "-" else CNum (estimatedTrendsInterest r);
    if failed then CStr "-" else trendCell (popularityTrend r);
    if failed then CStr "-" else trendCell (supplyTrend r);
    match error r with
    | Some (String c m) => CStr (String c m)
    | _ => CStr "OK"
    end ].

Definition dquote : string := String (ascii_of_nat 34) EmptyString.

(** [cell => `"${cell}"`] *)
Definition quoteCell (c : Cell) : string := dquote ++ cellToString c ++ dquote.

Definition csvHeaders : list string :=
  [ "Keyword"; "Audiobooks Found"; "Avg Popularity";
    "Estimated Trends Interest"; "Popularity Trend"; "Supply Trend";
    "Status" ].

(** [row.map(cell => `"${cell}"`).join(',')] *)
Definition csvLine (r : Result) : string :=
  join "," (map quoteCell (csvCells r)).

(** Lines 164-167: the text of the exported file. *)
Definition downloadCSV (rs : list Result) : string :=
  join (String newline EmptyString) (join "," csvHeaders :: map csvLine rs).

(* ================================================================== *)
(** ** Example inputs, and the notions the statements are written with *)

Definition nl : string := String newline EmptyString.

(** A response with status 200 whose body lists the given popularity
    values and reports the given total. *)
Definition found (pops : list (option Z)) (count : Z) : Api.fetch_result :=
  Api.Response 200
    (Api.JsonOk
       {| Api.audiobooks :=
            Some {| Api.items :=
                      Some (map (fun p => {| Api.popularity := p |}) pops);
                    Api.total := Some count |} |}).

(** A response with the given status and no usable body. *)
Definition refused (status : Z) : Api.fetch_result :=
  Api.Response status (Api.JsonThrows "Unexpected end of JSON input").

(** Five keywords, the third request answered with status 401. *)
Definition five : State :=
  mounted "token" ("a" ++ nl ++ "b" ++ nl ++ "c" ++ nl ++ "d" ++ nl ++ "e").

Definition expiresAtThird : Fetch :=
  fun i _ => if Nat.eqb i 2 then refused 401 else found [Some 60] 25.

(** Three keywords, the second request answered with status 500. *)
Definition three : State :=
  mounted "token" ("fantasy" ++ nl ++ " mystery " ++ nl ++ "sci-fi").

Definition failsAtSecond : Fetch :=
  fun i _ => if Nat.eqb i 1 then refused 500 else found [Some 60; None] 25.

(** Two consecutive runs for the keyword "mystery": the first finds 10
    audiobooks of popularity 40, the second 8 of popularity 55. *)
Definition mysteryFirst : State :=
  handleSearch (mounted "token" "mystery") "1 Nov"
    (fun _ _ => found [Some 40] 10).

Definition mysterySecond : State :=
  handleSearch mysteryFirst "2 Nov" (fun _ _ => found [Some 55] 8).

(** A third run with the same answers as the second. *)
Definition mysteryThird : State :=
  handleSearch mysterySecond "3 Nov" (fun _ _ => found [Some 55] 8).

(** The mean of the popularity values of the items, a missing value
    counting for 50 (the wording of the description of the score). *)
Definition popularityOrFifty (b : Api.book) : Z :=
  match Api.popularity b with
  | Some p => p
  | None => 50
  end.

Definition meanPopularity (books : list Api.book) : Z :=
  match books with
  | [] => 50
  | _ => round_div (fold_right Z.add 0 (map popularityOrFifty books))
           (Z.of_nat (List.length books))
  end.

(** The invariant of a snapshot that the summary relies on: a row with an
    error carries the popularity 0. *)
Definition failedRowsZeroed (rs : list Result) : Prop :=
  Forall (fun r => truthy (error r) = true -> avgPopularity r = 0) rs.

(** The sum of the popularity of the rows of a list. *)
Definition sumAvgPopularity (rs : list Result) : Z :=
  fold_right Z.add 0 (map avgPopularity rs).

(** Two keywords: the request of the first is answered with status 500,
    the second finds nothing. *)
Definition brokenThenSilent : State :=
  handleSearch (mounted "token" ("broken" ++ nl ++ "silent")) "2 Nov"
    (fun i _ => if Nat.eqb i 0 then refused 500 else found [] 0).

(** The text a trend is exported as: a plus sign before a positive number,
    the minus sign before the digits of a negative one, a bare 0. *)
Definition signedTrend (n : Z) : string :=
  match n with
  | Z0 => "0"
  | Zpos p => "+" ++ numToString (Zpos p)
  | Zneg p => "-" ++ numToString (Zpos p)
  end.





(* ================================================================== *)
(** ** What the component renders besides the ranking *)

(** Line 274, the counter under the text area:
    [keywords.split('\n').filter(k => k.trim()).length]. *)
Definition keywordCount (text : string) : nat :=
  List.length (filter (fun k => nonempty (trim k)) (split_lines text)).

(** Line 321, the "Best Opportunity" card:
    [topOpportunities[0] ? getOpportunityScore(topOpportunities[0]) : '-'].
    [None] is the dash. *)
Definition bestOpportunity (rs : list Result) : option (option Z) :=
  match topOpportunities rs with
  | top :: _ => Some (getOpportunityScore top)
  | [] => None
  end.

(** Lines 340-347: the children of the [Scatter]; [None] is the [null] a
    row with an error maps to, a text is the [fill] of a [Cell].  A score
    that is [null] compares as 0. *)
Definition cellColor (entry : Result) : option string :=
  if truthy (error entry) then None
  else
    let opportunity :=
      match getOpportunityScore entry with Some o => o | None => 0 end in
    Some (if 50 <? opportunity then "#22c55e"
          else if 20 <? opportunity then "#f59e0b"
          else "#ef4444").

Definition chartCells (rs : list Result) : list (option string) :=
  map cellColor rs.

(** The children that React renders: the ones that are not [null]. *)
Fixpoint rendered (cells : list (option string)) : list string :=
  match cells with
  | [] => []
  | Some c :: cells' => c :: rendered cells'
  | None :: cells' => rendered cells'
  end.

(** The "All Results" table of the second version of the page
    ([src/unnamed/part_001], lines 458-466):
    [(t > 0 ? '+' : '') + t] and the six cells of a row. *)
Definition tableTrend (t : option Z) : string :=
  match t with
  | Some n => (if 0 <? n then "+" else EmptyString) ++ numToString n
  | None => "undefined"
  end.

Definition tableCells (r : Result) : list string :=
  let failed := truthy (error r) in
  [ keyword r;
    if failed then "-" else numToString (audiobooks r);
    if failed then "-" else numToString (avgPopularity r);
    if failed then "-" else numToString (estimatedTrendsInterest r);
    if failed then "-" else tableTrend (popularityTrend r);
    if failed then "-" else tableTrend (supplyTrend r) ].

(* ================================================================== *)
(** ** The token: [requestAccessToken] and the route [/api/token] *)

Module Token.

(** The body of a JSON answer, as far as it is read: the [error] text of a
    refusal, or the [access_token] and [expires_in] of a grant. *)
Record payload := {
  error_text : option string;
  access_token : option string;
  expires_in : option Z
}.

Definition refusal (message : string) : payload :=
  {| error_text := Some message; access_token := None; expires_in := None |}.

Inductive json_result :=
| JsonOk (data : payload)
| JsonThrows (message : string).

Inductive fetch_result :=
| FetchThrows (message : string)
| Response (status : Z) (json : json_result).

(** The text of [tokenStatus]: empty, ['Requesting token...'], or the line
    that tells the token is active and in how many minutes it expires, kept
    as that number ([None] where [Math.round] gives no number). *)
Inductive status :=
| NoStatus
| Requesting
| Active (minutes : option Z).

(** The [useState] cells read or written by [requestAccessToken];
    [accessToken] is [None] after [setAccessToken(undefined)]. *)
Record state := {
  clientId : string;
  clientSecret : string;
  accessToken : option string;
  error : string;
  tokenStatus : status
}.

Definition failed (st : state) (message : string) (s : status) : state :=
  {| clientId := clientId st; clientSecret := clientSecret st;
     accessToken := accessToken st; error := message; tokenStatus := s |}.

(** Lines 20-54 of [src/app/page.js].  [post id secret] is the outcome of
    the POST of [{clientId: id, clientSecret: secret}] to [/api/token]. *)
Definition requestAccessToken (st : state)
  (post : string -> string -> fetch_result) : state :=
  if (negb (nonempty (trim (clientId st)))
      || negb (nonempty (trim (clientSecret st))))%bool then
    failed st "Please enter both Client ID and Client Secret" (tokenStatus st)
  else
    match post (trim (clientId st)) (trim (clientSecret st)) with
    | FetchThrows message =>
        failed st ("Error requesting token: " ++ message) NoStatus
    | Response status json =>
        if negb (Api.ok status) then
          failed st "Failed to request token. Check your Client ID and Secret."
            NoStatus
        else
          match json with
          | JsonThrows message =>
              failed st ("Error requesting token: " ++ message) NoStatus
          | JsonOk data =>
              {| clientId := clientId st; clientSecret := clientSecret st;
                 accessToken := access_token data;
                 error := EmptyString;
                 tokenStatus :=
                   Active (match expires_in data with
                           | Some seconds => Some (round_div seconds 60)
                           | None => None
                           end) |}
          end
    end.

(** The request the route receives: its method and the two properties read
    from its parsed body. *)
Record request := {
  method : string;
  body_clientId : option string;
  body_clientSecret : option string
}.

(** The route ([src/unnamed/part_001], lines 503-531): the status and the
    JSON it answers with.  [spotify id secret] is the outcome of the
    credentials-grant request made with the two values. *)
Definition handler (req : request)
  (spotify : string -> string -> fetch_result) : Z * payload :=
  if negb (String.eqb (method req) "POST") then
    (405, refusal "Method not allowed")
  else
    match body_clientId req, body_clientSecret req with
    | Some (String c1 id), Some (String c2 secret) =>
        match spotify (String c1 id) (String c2 secret) with
        | FetchThrows message => (500, refusal message)
        | Response status json =>
            if negb (Api.ok status) then (status, refusal "Spotify auth failed")
            else
              match json with
              | JsonThrows message => (500, refusal message)
              | JsonOk data => (200, data)
              end
        end
    | _, _ => (400, refusal "Missing credentials")
    end.

(** The component's POST answered by the route. *)
Definition viaRoute (spotify : string -> string -> fetch_result)
  (id secret : string) : fetch_result :=
  let '(status, data) :=
    handler {| method := "POST"; body_clientId := Some id;
               body_clientSecret := Some secret |} spotify in
  Response status (JsonOk data).

End Token.

(* ================================================================== *)
(** ** Notions the further statements are written with *)

(** The characters of a text. *)
Definition chars (s : string) : list ascii := list_ascii_of_string s.

Definition quoteChar : ascii := ascii_of_nat 34.

(** A row as the success path pushes it. *)
Definition okShaped (r : Result) : Prop :=
  error r = None
  /\ (exists pt st, popularityTrend r = Some pt /\ supplyTrend r = Some st)
  /\ estimatedTrendsInterest r = computeTrendsInterest (audiobooks r)
  /\ x r = Some (audiobooks r)
  /\ y r = Some (estimatedTrendsInterest r)
  /\ size r = Some (avgPopularity r * 2).

(** A row as the [catch] block pushes it. *)
Definition failedShaped (r : Result) : Prop :=
  (exists message, error r = Some message)
  /\ audiobooks r = -1 /\ avgPopularity r = 0 /\ estimatedTrendsInterest r = 0
  /\ popularityTrend r = None /\ supplyTrend r = None
  /\ x r = None /\ y r = None /\ size r = None.

(** The score of a row, where it has one. *)
Definition scoreOf (r : Result) : Z :=
  match getOpportunityScore r with
  | Some s => s
  | None => -1
  end.



(** The rows without error have measurements that are not negative. *)
Definition measured (rs : list Result) : Prop :=
  Forall (fun r => truthy (error r) = false ->
                   0 <= audiobooks r /\ 0 <= estimatedTrendsInterest r) rs.

(** The character [bad] does not occur in a text; in the keyword and the
    error message of a row. *)
Definition free (bad : ascii) (s : string) : Prop := ~ In bad (chars s).

Definition rowFree (bad : ascii) (r : Result) : Prop :=
  free bad (keyword r) /\ forall m, error r = Some m -> free bad m.

(** The texts of the cells of a row of the export. *)
Definition csvTexts (r : Result) : list string :=
  map cellToString (csvCells r).

(** Reading a line of quoted cells back: the text up to the next double
    quote and what follows it. *)
Fixpoint untilQuote (s : string) : option (string * string) :=
  match s with
  | EmptyString => None
  | String c s' =>
      if Ascii.eqb c quoteChar then Some (EmptyString, s')
      else match untilQuote s' with
           | Some (cell, rest) => Some (String c cell, rest)
           | None => None
           end
  end.

(** The cells of a line: a quoted cell, then either the end of the line or
    a comma and the remaining cells. *)
Fixpoint readCells (fuel : nat) (s : string) : option (list string) :=
  match fuel with
  | O => None
  | S fuel' =>
      match s with
      | EmptyString => None
      | String q s1 =>
          if Ascii.eqb q quoteChar then
            match untilQuote s1 with
            | Some (cell, EmptyString) => Some [cell]
            | Some (cell, String c rest) =>
                if Ascii.eqb c (ascii_of_nat 44) then
                  match readCells fuel' rest with
                  | Some cells => Some (cell :: cells)
                  | None => None
                  end
                else None
            | None => None
            end
          else None
      end
  end.

Definition readLine (line : string) : option (list string) :=
  readCells (String.length line) line.

(** A row without error with a demand of 23 for 39 audiobooks: the exact
    quotient [23 / 40 * 100] is 57.5. *)
Definition halfway : Result :=
  {| keyword := "halfway"; audiobooks := 39; avgPopularity := 50;
     estimatedTrendsInterest := 23; popularityTrend := Some 0;
     supplyTrend := Some 0; error := None; timestamp := "2 Nov";
     x := Some 39; y := Some 23; size := Some 100 |}.

(** For a count [i], the score of a row whose demand is derived from the
    count is the exact quotient rounded half up. *)
Definition pushedAgree (i : nat) : bool :=
  let count := Z.of_nat i in
  Math_round (times (divide (computeTrendsInterest count) (count + 1)) 100)
  =? round_div (computeTrendsInterest count * 100) (count + 1).


(* ================================================================== *)
(** * Properties *)

Open Scope list_scope.

(** ** The loop of [handleSearch] *)

(** The four ways out of the body of the loop: rejected [fetch], status
    401, another status outside 200..299, and a response that is [ok]. *)
Ltac searchOne_cases resp :=
  let status := fresh "status" in
  let json := fresh "json" in
  unfold searchOne;
  destruct resp as [? | status json];
  [ | destruct (negb (Api.ok status));
      [ destruct (status =? 401) | destruct json ] ].

Section Loop.

Variable prev : list Result.
Variable today : string.
Variable fetch : Fetch.

Lemma searchOne_None kw resp :
  searchOne prev today kw resp = None <-> unauthorized resp = true.
Proof.
  destruct resp as [m | status json]; simpl.
  - split; discriminate.
  - destruct (Api.ok status) eqn:Hok; simpl.
    + assert ((status =? 401) = false) as ->.
      { unfold Api.ok in Hok. apply andb_prop in Hok. lia. }
      destruct json; split; discriminate.
    + destruct (status =? 401); split; congruence.
Qed.

Lemma searchOne_keyword kw resp r :
  searchOne prev today kw resp = Some r -> keyword r = kw.
Proof. searchOne_cases resp; intros [= <-]; reflexivity. Qed.

(** A row pushed with an error has the popularity 0. *)
Lemma searchOne_zeroed kw resp r :
  searchOne prev today kw resp = Some r ->
  truthy (error r) = true -> avgPopularity r = 0.
Proof.
  searchOne_cases resp; intros [= <-]; solve [reflexivity | discriminate].
Qed.

(** A failing request that is not a 401 pushes the row of the [catch]
    block. *)
Lemma searchOne_failure kw resp msg :
  failureMessage resp = Some msg ->
  searchOne prev today kw resp = Some (failedResult today kw msg).
Proof.
  destruct resp as [m | status json]; simpl.
  - intros [= <-]. reflexivity.
  - destruct (Api.ok status); simpl.
    + destruct json; [discriminate | intros [= <-]; reflexivity].
    + destruct (status =? 401); [discriminate | intros [= <-]; reflexivity].
Qed.

(** Without a 401 the loop runs to its end and pushes one row per keyword,
    each the row of its own request. *)
Lemma searchLoop_complete kws :
  forall i acc,
    (forall j kw, nth_error kws j = Some kw ->
                  unauthorized (fetch (i + j)%nat kw) = false) ->
    exists rows,
      searchLoop prev today fetch i kws acc = ((acc ++ rows)%list, false)
      /\ List.length rows = List.length kws
      /\ map keyword rows = kws
      /\ forall j kw, nth_error kws j = Some kw ->
           searchOne prev today kw (fetch (i + j)%nat kw) = nth_error rows j.
Proof.
  induction kws as [| kw rest IH]; intros i acc Hno.
  - exists []. rewrite app_nil_r. repeat split; auto.
    intros [| j] kw; discriminate.
  - simpl.
    destruct (searchOne prev today kw (fetch i kw)) as [r |] eqn:Hone.
    + destruct (IH (S i) (acc ++ [r])) as (rows & Hloop & Hlen & Hkw & Hnth).
      { intros j kw' Hj. rewrite Nat.add_succ_l, <- Nat.add_succ_r.
        apply Hno. exact Hj. }
      exists (r :: rows). rewrite Hloop, <- app_assoc. simpl.
      repeat split; [congruence | | ].
      * f_equal; [eapply searchOne_keyword; eassumption | exact Hkw].
      * intros [| j] kw' Hj; simpl in *.
        -- injection Hj as <-. rewrite Nat.add_0_r. exact Hone.
        -- rewrite Nat.add_succ_r, <- Nat.add_succ_l. apply Hnth. exact Hj.
    + apply searchOne_None in Hone.
      specialize (Hno 0%nat kw eq_refl). rewrite Nat.add_0_r in Hno.
      congruence.
Qed.

(** The loop over [pre ++ post] continues after [pre] where the loop over
    [pre] alone stops, when that one was not cut short. *)
Lemma searchLoop_app pre post :
  forall i acc acc',
    searchLoop prev today fetch i pre acc = (acc', false) ->
    searchLoop prev today fetch i (pre ++ post) acc
    = searchLoop prev today fetch (i + List.length pre) post acc'.
Proof.
  induction pre as [| kw rest IH]; intros i acc acc' H; simpl in *.
  - injection H as <-. rewrite Nat.add_0_r. reflexivity.
  - destruct (searchOne prev today kw (fetch i kw)) as [r |]; [| discriminate].
    rewrite (IH _ _ _ H). f_equal. lia.
Qed.

(** A 401 after [pre] stops the loop with the rows of [pre] and nothing
    else. *)
Lemma searchLoop_expired pre kw post :
  forall i acc,
    (forall j kw', nth_error pre j = Some kw' ->
                   unauthorized (fetch (i + j)%nat kw') = false) ->
    unauthorized (fetch (i + List.length pre)%nat kw) = true ->
    exists rows,
      searchLoop prev today fetch i (pre ++ kw :: post) acc
      = (acc ++ rows, true)
      /\ searchLoop prev today fetch i pre acc = (acc ++ rows, false)
      /\ List.length rows = List.length pre
      /\ map keyword rows = pre.
Proof.
  intros i acc Hno H401.
  destruct (searchLoop_complete pre i acc Hno)
    as (rows & Hloop & Hlen & Hkw & _).
  exists rows. repeat split; auto.
  rewrite (searchLoop_app _ _ _ _ _ Hloop). simpl.
  apply searchOne_None with (kw := kw) in H401.
  rewrite H401. reflexivity.
Qed.

(** What holds of every row the body of the loop can push holds of every
    row of [searchResults]. *)
Lemma searchLoop_Forall (P : Result -> Prop) :
  (forall kw resp r, searchOne prev today kw resp = Some r -> P r) ->
  forall kws i acc,
    Forall P acc -> Forall P (fst (searchLoop prev today fetch i kws acc)).
Proof.
  intros Hone.
  induction kws as [| kw rest IH]; intros i acc Hacc; simpl.
  - exact Hacc.
  - destruct (searchOne prev today kw (fetch i kw)) as [r |] eqn:Hr.
    + apply IH. apply Forall_app. split; [exact Hacc |].
      constructor; [eapply Hone; exact Hr | constructor].
    + exact Hacc.
Qed.

End Loop.

Lemma nonempty_trim_token s :
  trim s <> EmptyString -> negb (nonempty (trim s)) = false.
Proof. destruct (trim s); [congruence | reflexivity]. Qed.

(** [handleSearch] once both guards are passed. *)
Lemma handleSearch_run st today fetch :
  trim (accessToken st) <> EmptyString ->
  keywordList (keywords st) <> [] ->
  handleSearch st today fetch =
  let '(searchResults, expired) :=
    searchLoop (previousResults st) today fetch 0
      (keywordList (keywords st)) [] in
  {| accessToken := accessToken st;
     keywords := keywords st;
     results := searchResults;
     previousResults := results st;
     isSearching := false;
     errorText :=
       if expired then "Token expired. Request a new one." else EmptyString;
     showMatrix := if expired then showMatrix st else true |}.
Proof.
  intros Htok Hkws. unfold handleSearch.
  rewrite (nonempty_trim_token _ Htok).
  destruct (keywordList (keywords st)); [congruence | reflexivity].
Qed.

(* ------------------------------------------------------------------ *)
(** ** One result per keyword, in order *)

(** C2. For a state with a token and a keyword text that yields a non-empty
    keyword list, a run in which no request is answered with status 401
    ends with a snapshot of exactly one row per keyword, the rows carrying
    the keywords in input order, and with no error shown. *)
Theorem C2_one_result_per_keyword st today fetch :
  trim (accessToken st) <> EmptyString ->
  keywordList (keywords st) <> [] ->
  (forall j kw, nth_error (keywordList (keywords st)) j = Some kw ->
                unauthorized (fetch j kw) = false) ->
  let st' := handleSearch st today fetch in
  map keyword (results st') = keywordList (keywords st)
  /\ List.length (results st') = List.length (keywordList (keywords st))
  /\ errorText st' = EmptyString
  /\ isSearching st' = false.
Proof.
  intros Htok Hkws Hno st'. subst st'.
  rewrite (handleSearch_run _ _ _ Htok Hkws).
  destruct (searchLoop_complete (previousResults st) today fetch
              (keywordList (keywords st)) 0 [] Hno)
    as (rows & Hloop & Hlen & Hkw & _).
  rewrite Hloop. simpl. auto.
Qed.

Lemma C2_witness :
  map keyword (results (handleSearch three "2 Nov" (fun _ _ => found [Some 60] 25)))
  = ["fantasy"; "mystery"; "sci-fi"].
Proof.
  refine (proj1 (C2_one_result_per_keyword three "2 Nov"
                   (fun _ _ => found [Some 60] 25) _ _ _)).
  - vm_compute. discriminate.
  - vm_compute. discriminate.
  - intros j kw _. reflexivity.
Defined.

(* ------------------------------------------------------------------ *)
(** ** Token expiry *)

(** C3. If the request for the keyword that follows [pre] is answered with
    status 401, and none before it was, the run ends with the token-expired
    message and the snapshot holds exactly the rows of [pre], as a run over
    [pre] alone would have pushed them: nothing for the keyword that got
    the 401 or for those after it. *)
Theorem C3_token_expired_aborts st today fetch pre kw post :
  trim (accessToken st) <> EmptyString ->
  keywordList (keywords st) = pre ++ kw :: post ->
  (forall j kw', nth_error pre j = Some kw' ->
                 unauthorized (fetch j kw') = false) ->
  unauthorized (fetch (List.length pre) kw) = true ->
  let st' := handleSearch st today fetch in
  errorText st' = "Token expired. Request a new one."
  /\ isSearching st' = false
  /\ List.length (results st') = List.length pre
  /\ map keyword (results st') = pre
  /\ searchLoop (previousResults st) today fetch 0 pre [] = (results st', false).
Proof.
  intros Htok Hkws Hno H401 st'. subst st'.
  rewrite handleSearch_run; [| exact Htok | rewrite Hkws; now destruct pre].
  rewrite Hkws.
  destruct (searchLoop_expired (previousResults st) today fetch pre kw post
              0 [] Hno H401) as (rows & Hloop & Hpre & Hlen & Hkw).
  rewrite Hloop. simpl. auto.
Qed.

Lemma C3_witness :
  let st' := handleSearch five "2 Nov" expiresAtThird in
  errorText st' = "Token expired. Request a new one."
  /\ isSearching st' = false
  /\ List.length (results st') = 2%nat
  /\ map keyword (results st') = ["a"; "b"]
  /\ searchLoop [] "2 Nov" expiresAtThird 0 ["a"; "b"] [] = (results st', false).
Proof.
  refine (C3_token_expired_aborts five "2 Nov" expiresAtThird
            ["a"; "b"] "c" ["d"; "e"] _ _ _ _).
  - vm_compute. discriminate.
  - vm_compute. reflexivity.
  - intros [| [| j]] kw' H; try reflexivity.
    destruct j; discriminate.
  - reflexivity.
Defined.


(* ------------------------------------------------------------------ *)
(** ** Failed keywords *)

(** C4, as the claim states it, fails: the row of a failed keyword has no
    [popularityTrend] and no [supplyTrend] at all, where the claim wants
    them set to 0.  Second of three keywords answered with status 500. *)
Lemma C4_counterexample :
  exists r,
    nth_error (results (handleSearch three "2 Nov" failsAtSecond)) 1 = Some r
    /\ error r = Some "API error: 500"
    /\ audiobooks r = -1
    /\ popularityTrend r <> Some 0
    /\ supplyTrend r <> Some 0.
Proof.
  eexists. split; [vm_compute; reflexivity |].
  simpl. repeat split; discriminate.
Qed.

(** C4 (amended). In a run without a 401, a keyword whose request fails
    (rejected [fetch], status outside 200..299 other than 401, or unreadable
    body) gets the row [audiobooks = -1], [avgPopularity = 0],
    [estimatedTrendsInterest = 0], [error] the message of the failure, and
    no trend, chart coordinate or size; the run goes on: the snapshot has
    one row per keyword and every row is the one its own request gives. *)
Theorem C4_failed_keyword_recorded st today fetch i kw msg :
  trim (accessToken st) <> EmptyString ->
  (forall j kw', nth_error (keywordList (keywords st)) j = Some kw' ->
                 unauthorized (fetch j kw') = false) ->
  nth_error (keywordList (keywords st)) i = Some kw ->
  failureMessage (fetch i kw) = Some msg ->
  let st' := handleSearch st today fetch in
  nth_error (results st') i
  = Some {| keyword := kw; audiobooks := -1; avgPopularity := 0;
            estimatedTrendsInterest := 0; popularityTrend := None;
            supplyTrend := None; error := Some msg; timestamp := today;
            x := None; y := None; size := None |}
  /\ List.length (results st') = List.length (keywordList (keywords st))
  /\ forall j kw', nth_error (keywordList (keywords st)) j = Some kw' ->
       nth_error (results st') j
       = searchOne (previousResults st) today kw' (fetch j kw').
Proof.
  intros Htok Hno Hi Hfail st'. subst st'.
  assert (keywordList (keywords st) <> []) as Hkws.
  { intros E. rewrite E in Hi. destruct i; discriminate. }
  rewrite (handleSearch_run _ _ _ Htok Hkws).
  destruct (searchLoop_complete (previousResults st) today fetch
              (keywordList (keywords st)) 0 [] Hno)
    as (rows & Hloop & Hlen & Hkw & Hnth).
  rewrite Hloop. simpl. repeat split.
  - rewrite <- (Hnth i kw Hi). simpl.
    apply searchOne_failure. exact Hfail.
  - exact Hlen.
  - intros j kw' Hj. symmetry. apply (Hnth j kw' Hj).
Qed.

Lemma C4_witness :
  let st' := handleSearch three "2 Nov" failsAtSecond in
  nth_error (results st') 1
  = Some {| keyword := "mystery"; audiobooks := -1; avgPopularity := 0;
            estimatedTrendsInterest := 0; popularityTrend := None;
            supplyTrend := None; error := Some "API error: 500";
            timestamp := "2 Nov"; x := None; y := None; size := None |}
  /\ List.length (results st') = 3%nat
  /\ forall j kw', nth_error ["fantasy"; "mystery"; "sci-fi"] j = Some kw' ->
       nth_error (results st') j = searchOne [] "2 Nov" kw' (failsAtSecond j kw').
Proof.
  refine (C4_failed_keyword_recorded three "2 Nov" failsAtSecond
            1 "mystery" "API error: 500" _ _ _ _).
  - vm_compute. discriminate.
  - intros [| [| [| j]]] kw' H; reflexivity.
  - reflexivity.
  - reflexivity.
Defined.

(* ------------------------------------------------------------------ *)
(** ** Trends against the previous run *)

(** The trends of a row of the success path are taken against the first
    row of [prev] with the same keyword. *)
Lemma okResult_trends prev today kw data :
  let r := okResult prev today kw data in
  match findPrev prev kw with
  | Some p =>
      keyword p = kw
      /\ popularityTrend r = Some (avgPopularity r - avgPopularity p)
      /\ supplyTrend r = Some (audiobooks r - audiobooks p)
  | None => popularityTrend r = Some 0 /\ supplyTrend r = Some 0
  end.
Proof.
  unfold okResult, findPrev. simpl.
  destruct (find _ prev) as [p |] eqn:Hfind; [| auto].
  apply find_some in Hfind. destruct Hfind as [_ Heq].
  apply String.eqb_eq in Heq. auto.
Qed.

(** [setPreviousResults(results)] stores the snapshot the render had; the
    list searched at line 113 is the [previousResults] the render had. *)
Lemma handleSearch_previousResults st today fetch :
  trim (accessToken st) <> EmptyString ->
  keywordList (keywords st) <> [] ->
  previousResults (handleSearch st today fetch) = results st
  /\ exists expired,
       searchLoop (previousResults st) today fetch 0
         (keywordList (keywords st)) []
       = (results (handleSearch st today fetch), expired).
Proof.
  intros Htok Hkws. rewrite (handleSearch_run _ _ _ Htok Hkws).
  destruct (searchLoop _ _ _ _ _ _) as [rows expired]. simpl.
  split; [reflexivity | exists expired; reflexivity].
Qed.

Lemma searchOne_fresh today kw resp r :
  searchOne [] today kw resp = Some r ->
  error r = None -> popularityTrend r = Some 0 /\ supplyTrend r = Some 0.
Proof.
  searchOne_cases resp; intros [= <-];
    solve [split; reflexivity | discriminate].
Qed.

(** Whatever the first run after mounting finds, the run that follows it
    emits only zero trends: it searches the empty list of the mount. *)
Lemma second_run_trends_zero token kws today1 fetch1 kws' today2 fetch2 :
  let st1 := handleSearch (mounted token kws) today1 fetch1 in
  let st2 := handleSearch (setKeywords st1 kws') today2 fetch2 in
  Forall (fun r => error r = None ->
                   popularityTrend r = Some 0 /\ supplyTrend r = Some 0)
    (results st2).
Proof.
  intros st1 st2.
  assert (previousResults st1 = []
          /\ Forall (fun r => error r = None ->
                              popularityTrend r = Some 0 /\ supplyTrend r = Some 0)
               (results st1)) as [Hprev Hres].
  { subst st1. unfold handleSearch.
    destruct (negb (nonempty (trim (accessToken (mounted token kws)))));
      [split; [reflexivity | constructor] |].
    destruct (Nat.eqb _ 0); [split; [reflexivity | constructor] |].
    pose proof (searchLoop_Forall [] today1 fetch1 _
                  (searchOne_fresh today1)
                  (keywordList (keywords (mounted token kws))) 0 []
                  (Forall_nil _)) as H.
    simpl previousResults in *.
    destruct (searchLoop _ _ _ _ _ _) as [rows expired].
    split; [reflexivity | exact H]. }
  subst st2. unfold handleSearch.
  destruct (negb (nonempty (trim (accessToken (setKeywords st1 kws')))));
    [exact Hres |].
  destruct (Nat.eqb _ 0); [exact Hres |].
  simpl previousResults. rewrite Hprev.
  pose proof (searchLoop_Forall [] today2 fetch2 _
                (searchOne_fresh today2)
                (keywordList (keywords (setKeywords st1 kws'))) 0 []
                (Forall_nil _)) as H.
  destruct (searchLoop _ _ _ _ _ _) as [rows expired]. exact H.
Qed.

(** C1, at the input of the claim: the first run records
    [avgPopularity = 40], [audiobooks = 10] for "mystery"; the run that
    follows it computes 55 and 8, and emits both trends as 0, not 15 and
    -2: it searches the list that was current before the first run.  Only
    a third run sees the first run's row. *)
Theorem C1_rerun_trends_are_zero :
  (exists r, results mysteryFirst = [r] /\ keyword r = "mystery"
             /\ avgPopularity r = 40 /\ audiobooks r = 10)
  /\ previousResults mysterySecond = results mysteryFirst
  /\ (exists r, results mysterySecond = [r] /\ keyword r = "mystery"
                /\ avgPopularity r = 55 /\ audiobooks r = 8
                /\ popularityTrend r = Some 0 /\ supplyTrend r = Some 0)
  /\ (exists r, results mysteryThird = [r]
                /\ popularityTrend r = Some (55 - 40)
                /\ supplyTrend r = Some (8 - 10)).
Proof.
  repeat split; try (eexists; split; [vm_compute; reflexivity |]);
    repeat split; reflexivity.
Qed.

(* ------------------------------------------------------------------ *)
(** ** Average popularity of a keyword *)

Lemma fold_left_add_shift {A} (f : A -> Z) (l : list A) :
  forall a, fold_left (fun sum e => sum + f e) l a
            = a + fold_right Z.add 0 (map f l).
Proof.
  induction l as [| e l IH]; intros a; simpl.
  - lia.
  - rewrite IH. lia.
Qed.

(** Where no item has the popularity 0, the score is the rounded mean with
    50 for a missing popularity, and 50 for an empty list. *)
Lemma computeAvgPopularity_mean books :
  Forall (fun b => Api.popularity b <> Some 0) books ->
  computeAvgPopularity books = meanPopularity books.
Proof.
  intros Hnz. unfold computeAvgPopularity, meanPopularity, popularitySum.
  destruct books as [| b books]; [reflexivity |].
  replace (0 <? Z.of_nat (List.length (b :: books))) with true
    by (symmetry; apply Z.ltb_lt; simpl List.length; lia).
  f_equal. rewrite fold_left_add_shift. rewrite Z.add_0_l.
  f_equal. apply map_ext_in. intros b' Hin.
  rewrite Forall_forall in Hnz. specialize (Hnz b' Hin).
  unfold popularityOrFifty, or_default.
  destruct (Api.popularity b') as [[| q | q] |]; congruence.
Qed.

(** C5, at an item whose popularity is 0: the item counts for 50, so the
    score of a response with this single item is 50, where the rounded mean
    of the popularity values is 0. *)
Theorem C5_zero_popularity_counts_as_fifty :
  computeAvgPopularity [ {| Api.popularity := Some 0 |} ] = 50
  /\ meanPopularity [ {| Api.popularity := Some 0 |} ] = 0
  /\ map avgPopularity
       (results (handleSearch (mounted "token" "mystery") "2 Nov"
                   (fun _ _ => found [Some 0] 1)))
     = [50].
Proof. repeat split; vm_compute; reflexivity. Qed.

(* ------------------------------------------------------------------ *)
(** ** Opportunity score *)

(** [round_div n d] is the integer [s] with [s - 1/2 <= n/d < s + 1/2]. *)
Lemma round_div_bounds n d :
  0 < d ->
  (2 * round_div n d - 1) * d <= 2 * n < (2 * round_div n d + 1) * d.
Proof.
  intros Hd. unfold round_div.
  pose proof (Z.div_mod (2 * n + d) (2 * d) ltac:(lia)) as Hdm.
  pose proof (Z.mod_pos_bound (2 * n + d) (2 * d) ltac:(lia)) as Hr.
  set (q := (2 * n + d) / (2 * d)) in *.
  set (m := (2 * n + d) mod (2 * d)) in *.
  nia.
Qed.

Lemma round_div_exact n d : 0 < d -> round_div (n * d) d = n.
Proof.
  intros Hd. unfold round_div.
  replace (2 * (n * d) + d) with (d + n * (2 * d)) by lia.
  rewrite Z.div_add by lia.
  rewrite Z.div_small by lia. lia.
Qed.

(** *** The arithmetic of doubles *)

Lemma scaleUp_pos x e : 0 < x -> 0 < scaleUp x e.
Proof.
  intros Hx. unfold scaleUp.
  apply Z.mul_pos_pos; [exact Hx | apply Z.pow_pos_nonneg; lia].
Qed.

Lemma scaleUp_nonneg x e : 0 <= x -> 0 <= scaleUp x e.
Proof.
  intros Hx. unfold scaleUp.
  apply Z.mul_nonneg_nonneg; [exact Hx | apply Z.pow_nonneg; lia].
Qed.

(** [d * 2 ^ b <= n * 2 ^ a] says that [n / d] is at least [2 ^ (b - a)],
    which is what [scaleUp d e <= scaleUp n (- e)] says for [e = b - a]. *)
Lemma scale_le n d e a b :
  0 <= a -> 0 <= b -> e = b - a ->
  (d * 2 ^ b <= n * 2 ^ a <-> scaleUp d e <= scaleUp n (- e)).
Proof.
  intros Ha Hb ->. unfold scaleUp.
  destruct (Z.le_ge_cases 0 (b - a)) as [Hpos | Hneg].
  - rewrite (Z.max_r 0 (b - a)) by lia.
    rewrite (Z.max_l 0 (- (b - a))) by lia.
    replace b with (a + (b - a)) at 1 by lia.
    rewrite Z.pow_add_r by lia. rewrite Z.pow_0_r.
    pose proof (Z.pow_pos_nonneg 2 a ltac:(lia) Ha).
    pose proof (Z.pow_pos_nonneg 2 (b - a) ltac:(lia) Hpos).
    set (P := 2 ^ a) in *. set (Q := 2 ^ (b - a)) in *.
    split; intros Hle; nia.
  - rewrite (Z.max_l 0 (b - a)) by lia.
    rewrite (Z.max_r 0 (- (b - a))) by lia.
    replace a with (b + - (b - a)) at 1 by lia.
    rewrite Z.pow_add_r by lia. rewrite Z.pow_0_r.
    pose proof (Z.pow_pos_nonneg 2 b ltac:(lia) Hb).
    pose proof (Z.pow_pos_nonneg 2 (- (b - a)) ltac:(lia) ltac:(lia)).
    set (P := 2 ^ b) in *. set (Q := 2 ^ (- (b - a))) in *.
    split; intros Hle; nia.
Qed.

(** The exponent is the right one: scaled by it, the quotient has 53
    binary digits. *)
Lemma exponent_spec n d :
  0 < n -> 0 < d ->
  2 ^ 52 * scaleUp d (exponent n d) <= scaleUp n (- exponent n d)
  /\ scaleUp n (- exponent n d) < 2 ^ 53 * scaleUp d (exponent n d).
Proof.
  intros Hn Hd.
  pose proof (Z.log2_spec n Hn) as [Hn1 Hn2].
  pose proof (Z.log2_spec d Hd) as [Hd1 Hd2].
  pose proof (Z.log2_nonneg n) as Hln. pose proof (Z.log2_nonneg d) as Hld.
  set (la := Z.log2 n) in *. set (ld := Z.log2 d) in *.
  unfold Z.succ in Hn2, Hd2.
  rewrite Z.pow_add_r in Hn2, Hd2 by lia. rewrite Z.pow_1_r in Hn2, Hd2.
  pose proof (Z.pow_pos_nonneg 2 la ltac:(lia) Hln) as Hpa.
  pose proof (Z.pow_pos_nonneg 2 ld ltac:(lia) Hld) as Hpd.
  assert (scaleUp d (la - ld - 1) <= scaleUp n (- (la - ld - 1))) as Hlow.
  { apply (scale_le n d _ (ld + 1) la); [lia | lia | lia |].
    rewrite Z.pow_add_r by lia. rewrite Z.pow_1_r. nia. }
  assert (~ scaleUp d (la - ld + 1) <= scaleUp n (- (la - ld + 1))) as Hhigh.
  { intros H. apply (scale_le n d _ ld (la + 1)) in H; [| lia | lia | lia].
    rewrite Z.pow_add_r in H by lia. rewrite Z.pow_1_r in H. nia. }
  assert (exists L, exponent n d = L - 52
                    /\ scaleUp d L <= scaleUp n (- L)
                    /\ ~ scaleUp d (L + 1) <= scaleUp n (- (L + 1)))
    as (L & -> & HL & HL1).
  { unfold exponent. fold la ld.
    destruct (scaleUp n (- (la - ld)) <? scaleUp d (la - ld)) eqn:Hb.
    - apply Z.ltb_lt in Hb. exists (la - ld - 1).
      split; [reflexivity |]. split; [exact Hlow |].
      replace (la - ld - 1 + 1) with (la - ld) by lia. lia.
    - apply Z.ltb_ge in Hb. exists (la - ld).
      split; [reflexivity |]. split; [exact Hb | exact Hhigh]. }
  set (e := L - 52) in *.
  assert (0 <= Z.max 0 e /\ 0 <= Z.max 0 (- e)) as [Hq Hp] by lia.
  split.
  - apply (scale_le n d L (Z.max 0 (- e)) (Z.max 0 e + 52)) in HL;
      [| lia | lia | lia].
    rewrite Z.pow_add_r in HL by lia. unfold scaleUp. lia.
  - apply Z.nle_gt. intros H. apply HL1.
    apply (scale_le n d (L + 1) (Z.max 0 (- e)) (Z.max 0 e + 53));
      [lia | lia | lia |].
    rewrite Z.pow_add_r by lia. unfold scaleUp in H. lia.
Qed.

Lemma nearestEven_spec n d :
  0 <= n -> 0 < d ->
  0 <= nearestEven n d
  /\ 2 * (nearestEven n d * d) - d <= 2 * n <= 2 * (nearestEven n d * d) + d.
Proof.
  intros Hn Hd. unfold nearestEven.
  pose proof (Z.div_mod n d ltac:(lia)) as Hdm.
  pose proof (Z.mod_pos_bound n d Hd) as Hr.
  pose proof (Z.div_pos n d Hn Hd) as Hq.
  set (q := n / d) in *. set (r := n mod d) in *.
  destruct (2 * r <? d) eqn:H1; [apply Z.ltb_lt in H1; split; nia |].
  apply Z.ltb_ge in H1.
  destruct (d <? 2 * r) eqn:H2; [apply Z.ltb_lt in H2; split; nia |].
  apply Z.ltb_ge in H2.
  destruct (Z.even q); split; nia.
Qed.

(** The double nearest to [n / d], as the fraction [N / D]: within one
    part in [2 ^ 53] of [n / d]. *)
Lemma toDouble_spec n d :
  0 < n -> 0 < d ->
  0 < denominator (toDouble n d)
  /\ 0 <= numerator (toDouble n d)
  /\ 2 ^ 53 * (numerator (toDouble n d) * d - n * denominator (toDouble n d))
     <= n * denominator (toDouble n d)
  /\ 2 ^ 53 * (n * denominator (toDouble n d) - numerator (toDouble n d) * d)
     <= n * denominator (toDouble n d).
Proof.
  intros Hn Hd. unfold toDouble.
  replace (n =? 0) with false by (symmetry; apply Z.eqb_neq; lia).
  rewrite (Z.abs_eq n) by lia. rewrite (Z.sgn_pos n) by lia.
  rewrite Z.mul_1_l.
  destruct (exponent_spec n d Hn Hd) as [He1 He2].
  set (e := exponent n d) in *.
  pose proof (scaleUp_pos d e Hd) as Hden.
  pose proof (scaleUp_pos n (- e) Hn) as Hnum.
  destruct (nearestEven_spec (scaleUp n (- e)) (scaleUp d e)
              ltac:(lia) Hden) as [Hm0 Hm].
  set (m := nearestEven (scaleUp n (- e)) (scaleUp d e)) in *.
  unfold numerator, denominator. cbn [fst snd].
  assert (scaleUp m e * d = m * scaleUp d e) as -> by (unfold scaleUp; ring).
  assert (n * scaleUp 1 (- e) = scaleUp n (- e)) as -> by (unfold scaleUp; ring).
  split; [apply scaleUp_pos; lia |].
  split; [apply scaleUp_nonneg; exact Hm0 |].
  change (2 ^ 53) with (2 * 2 ^ 52) in *.
  set (U := 2 ^ 52) in *. set (num := scaleUp n (- e)) in *.
  set (den := scaleUp d e) in *.
  split; nia.
Qed.

Lemma toDouble_zero d : toDouble 0 d = (0, 0).
Proof. reflexivity. Qed.

Lemma toDouble_nonneg n d :
  0 <= n -> 0 < d ->
  0 < denominator (toDouble n d) /\ 0 <= numerator (toDouble n d).
Proof.
  intros Hn Hd. destruct (Z.eq_dec n 0) as [-> | Hnz].
  - rewrite toDouble_zero. split; reflexivity.
  - destruct (toDouble_spec n d ltac:(lia) Hd) as (H1 & H2 & _). auto.
Qed.

Lemma divide_pos a b : 0 < b -> divide a b = toDouble a b.
Proof.
  intros Hb. unfold divide.
  rewrite (Z.sgn_pos b Hb), (Z.abs_eq b) by lia.
  rewrite Z.mul_1_r. reflexivity.
Qed.

(** The score is not negative where count and demand are not. *)
Lemma score_nonneg demand supply :
  0 <= demand -> 0 <= supply ->
  0 <= Math_round (times (divide demand (supply + 1)) 100).
Proof.
  intros Hd Hs. rewrite divide_pos by lia.
  destruct (toDouble_nonneg demand (supply + 1) Hd ltac:(lia)) as [HD HN].
  unfold times.
  destruct (toDouble_nonneg (numerator (toDouble demand (supply + 1)) * 100)
              (denominator (toDouble demand (supply + 1)))
              ltac:(lia) HD) as [HD' HN'].
  unfold Math_round, round_div. apply Z.div_pos; lia.
Qed.

(** The arithmetic behind [score_window], with [U] for [2 ^ 53]: a
    fraction [Ny / Dy] within one part in [U] of 100 times a fraction
    within one part in [U] of [demand / N0] rounds as [100 * demand / N0]
    does, but for the half integers. *)
Lemma window_arith U demand N0 Nx Dx Ny Dy s k :
  0 < U -> 20000 * (2 * U + 1) < U * U ->
  0 < demand <= 100 -> 0 < N0 -> 0 < Dx -> 0 < Dy -> 0 <= Ny ->
  U * (Nx * N0 - demand * Dx) <= demand * Dx ->
  U * (demand * Dx - Nx * N0) <= demand * Dx ->
  U * (Ny * Dx - Nx * 100 * Dy) <= Nx * 100 * Dy ->
  U * (Nx * 100 * Dy - Ny * Dx) <= Nx * 100 * Dy ->
  (2 * s - 1) * Dy <= 2 * Ny < (2 * s + 1) * Dy ->
  (2 * k - 1) * N0 <= 2 * (demand * 100) < (2 * k + 1) * N0 ->
  k - 1 <= s <= k /\ (200 * demand <> (2 * k - 1) * N0 -> s = k).
Proof.
  intros HU Hbig Hd HN0 HDx HDy HNy Hx1 Hx2 Hy1 Hy2 Hs Hk.
  assert (0 < Nx) as HNx by nia.
  (* upper and lower bounds on U^2 * Ny * N0 *)
  assert (U * U * (Ny * N0) <= 100 * ((U + 1) * (U + 1)) * (demand * Dy)) as Hup.
  { assert (U * (Ny * Dx) <= (U + 1) * (100 * (Nx * Dy))) as A by lia.
    assert (U * (Nx * N0) <= (U + 1) * (demand * Dx)) as B by lia.
    assert (U * (Ny * Dx) * (U * N0) <= (U + 1) * (100 * (Nx * Dy)) * (U * N0)) as A'.
    { apply Z.mul_le_mono_nonneg_r; [nia | exact A]. }
    assert ((U + 1) * (100 * Dy) * (U * (Nx * N0))
            <= (U + 1) * (100 * Dy) * ((U + 1) * (demand * Dx))) as B'.
    { apply Z.mul_le_mono_nonneg_l; [nia | exact B]. }
    apply (Z.mul_le_mono_pos_l _ _ Dx HDx).
    eapply Z.le_trans; [| eapply Z.le_trans; [exact A' |]].
    - apply Z.eq_le_incl. ring.
    - eapply Z.le_trans; [| eapply Z.le_trans; [exact B' |]];
        apply Z.eq_le_incl; ring. }
  assert (100 * ((U - 1) * (U - 1)) * (demand * Dy) <= U * U * (Ny * N0)) as Hdown.
  { assert ((U - 1) * (100 * (Nx * Dy)) <= U * (Ny * Dx)) as A by lia.
    assert ((U - 1) * (demand * Dx) <= U * (Nx * N0)) as B by lia.
    assert ((U - 1) * (100 * (Nx * Dy)) * (U * N0) <= U * (Ny * Dx) * (U * N0)) as A'.
    { apply Z.mul_le_mono_nonneg_r; [nia | exact A]. }
    assert ((U - 1) * (100 * Dy) * ((U - 1) * (demand * Dx))
            <= (U - 1) * (100 * Dy) * (U * (Nx * N0))) as B'.
    { apply Z.mul_le_mono_nonneg_l; [nia | exact B]. }
    apply (Z.mul_le_mono_pos_l _ _ Dx HDx).
    eapply Z.le_trans; [| eapply Z.le_trans; [exact A' |]].
    - eapply Z.le_trans; [| eapply Z.le_trans; [exact B' |]];
        apply Z.eq_le_incl; ring.
    - apply Z.eq_le_incl. ring. }
  clear Hx1 Hx2 Hy1 Hy2 HNx Nx Dx HDx.
  assert (demand * Dy <= 100 * Dy) as HQ
      by (apply Z.mul_le_mono_nonneg_r; lia).
  assert (200 * (demand * Dy) + Dy <= 2 * (Ny * N0) -> False) as Hhigh.
  { intros E.
    assert (U * U * (200 * (demand * Dy) + Dy) <= U * U * (2 * (Ny * N0)))
      as E5 by (apply Z.mul_le_mono_nonneg_l; [nia | exact E]).
    assert ((2 * U + 1) * (demand * Dy) <= (2 * U + 1) * (100 * Dy))
      as E6 by (apply Z.mul_le_mono_nonneg_l; [lia | exact HQ]).
    assert (20000 * (2 * U + 1) * Dy < U * U * Dy)
      as E8 by (apply Z.mul_lt_mono_pos_r; assumption).
    lia. }
  assert (2 * (Ny * N0) + Dy <= 200 * (demand * Dy) -> False) as Hlow.
  { intros E.
    assert (U * U * (2 * (Ny * N0) + Dy) <= U * U * (200 * (demand * Dy)))
      as E5 by (apply Z.mul_le_mono_nonneg_l; [nia | exact E]).
    assert ((2 * U - 1) * (demand * Dy) <= (2 * U - 1) * (100 * Dy))
      as E6 by (apply Z.mul_le_mono_nonneg_l; [lia | exact HQ]).
    assert (20000 * (2 * U + 1) * Dy < U * U * Dy)
      as E8 by (apply Z.mul_lt_mono_pos_r; assumption).
    lia. }
  assert (s <= k) as Hsk.
  { destruct (Z_le_gt_dec s k) as [H | H]; [exact H | exfalso].
    apply Hhigh.
    assert ((2 * k + 1) * Dy <= (2 * s - 1) * Dy)
      as E1 by (apply Z.mul_le_mono_nonneg_r; lia).
    assert (Dy * (200 * demand + 1) <= Dy * ((2 * k + 1) * N0))
      as E2 by (apply Z.mul_le_mono_nonneg_l; lia).
    assert ((2 * k + 1) * Dy * N0 <= 2 * Ny * N0)
      as E3 by (apply Z.mul_le_mono_nonneg_r; lia).
    lia. }
  assert (Dy * ((2 * k - 1) * N0) <= Dy * (200 * demand))
    as Ek by (apply Z.mul_le_mono_nonneg_l; lia).
  assert (Dy * 1 <= Dy * N0) as EN by (apply Z.mul_le_mono_nonneg_l; lia).
  split; [split; [| exact Hsk] |].
  - destruct (Z_le_gt_dec (k - 1) s) as [H | H]; [exact H | exfalso].
    apply Hlow.
    assert ((2 * s + 1) * Dy <= (2 * k - 3) * Dy)
      as E1 by (apply Z.mul_le_mono_nonneg_r; lia).
    assert (2 * Ny * N0 <= (2 * k - 3) * Dy * N0)
      as E3 by (apply Z.mul_le_mono_nonneg_r; lia).
    lia.
  - intros Hhalf.
    destruct (Z.eq_dec s k) as [H | H]; [exact H | exfalso].
    apply Hlow.
    assert ((2 * s + 1) * Dy <= (2 * k - 1) * Dy)
      as E1 by (apply Z.mul_le_mono_nonneg_r; lia).
    assert (2 * Ny * N0 <= (2 * k - 1) * Dy * N0)
      as E3 by (apply Z.mul_le_mono_nonneg_r; lia).
    assert (Dy * ((2 * k - 1) * N0) <= Dy * (200 * demand - 1))
      as Ek' by (apply Z.mul_le_mono_nonneg_l; lia).
    lia.
Qed.

(** The two roundings to doubles move the quotient by less than what
    separates it from the half integers, unless it is one of them: the
    score is the exact quotient rounded half up, or, where the exact
    quotient is half an integer, possibly one less. *)
Lemma score_window demand supply :
  0 <= demand <= 100 -> 0 <= supply ->
  round_div (demand * 100) (supply + 1) - 1
  <= Math_round (times (divide demand (supply + 1)) 100)
  <= round_div (demand * 100) (supply + 1)
  /\ (200 * demand
      <> (2 * round_div (demand * 100) (supply + 1) - 1) * (supply + 1) ->
      Math_round (times (divide demand (supply + 1)) 100)
      = round_div (demand * 100) (supply + 1)).
Proof.
  intros Hd Hs.
  destruct (Z.eq_dec demand 0) as [-> | Hnz].
  { rewrite divide_pos by lia. rewrite toDouble_zero.
    change (Math_round (times (0, 0) 100)) with 0.
    change (0 * 100) with 0.
    assert (round_div 0 (supply + 1) = 0) as ->.
    { unfold round_div. apply Z.div_small. lia. }
    split; [lia | reflexivity]. }
  rewrite divide_pos by lia.
  set (N0 := supply + 1) in *.
  destruct (toDouble_spec demand N0 ltac:(lia) ltac:(lia))
    as (HDx & HNx & Hx1 & Hx2).
  set (Nx := numerator (toDouble demand N0)) in *.
  set (Dx := denominator (toDouble demand N0)) in *.
  assert (0 < 2 ^ 53 /\ 20000 * (2 * 2 ^ 53 + 1) < 2 ^ 53 * 2 ^ 53)
    as [HU Hbig] by (split; reflexivity).
  set (U := 2 ^ 53) in *.
  assert (0 < Nx) as HNxpos by nia.
  unfold times. fold Nx Dx.
  destruct (toDouble_spec (Nx * 100) Dx ltac:(lia) HDx)
    as (HDy & HNy & Hy1 & Hy2).
  fold U in Hy1, Hy2.
  set (Ny := numerator (toDouble (Nx * 100) Dx)) in *.
  set (Dy := denominator (toDouble (Nx * 100) Dx)) in *.
  unfold Math_round. fold Ny Dy.
  apply (window_arith U demand N0 Nx Dx Ny Dy); try assumption; try lia.
  - apply round_div_bounds. exact HDy.
  - apply round_div_bounds. lia.
Qed.

(** For a row whose demand is derived from its count, as it is in every
    row that [handleSearch] pushes, the score is the exact quotient rounded
    half up. *)
Lemma score_pushed count :
  0 <= count ->
  Math_round (times (divide (computeTrendsInterest count) (count + 1)) 100)
  = round_div (computeTrendsInterest count * 100) (count + 1).
Proof.
  intros Hc. destruct (Z_lt_le_dec count 498) as [Hsmall | Hlarge].
  - assert (forallb pushedAgree (seq 0 498) = true) as Hall
        by (vm_compute; reflexivity).
    rewrite forallb_forall in Hall.
    specialize (Hall (Z.to_nat count)).
    unfold pushedAgree in Hall. rewrite Z2Nat.id in Hall by lia.
    apply Z.eqb_eq, Hall, in_seq. lia.
  - assert (computeTrendsInterest count = 100) as ->.
    { unfold computeTrendsInterest, round_div. apply Z.min_l.
      apply Z.div_le_lower_bound; lia. }
    destruct (score_window 100 count ltac:(lia) Hc) as [_ Hexact].
    pose proof (round_div_bounds (100 * 100) (count + 1) ltac:(lia)) as Hk.
    set (k := round_div (100 * 100) (count + 1)) in *.
    destruct (Z.eq_dec (200 * 100) ((2 * k - 1) * (count + 1)))
      as [Hhalf | Hne]; [| exact (Hexact Hne)].
    assert (1 <= k <= 20) as Hrange by nia.
    assert (count = 19999 \/ count = 3999 \/ count = 799) as Hcases.
    { assert (k = 1 \/ k = 2 \/ k = 3 \/ k = 4 \/ k = 5 \/ k = 6 \/ k = 7
              \/ k = 8 \/ k = 9 \/ k = 10 \/ k = 11 \/ k = 12 \/ k = 13
              \/ k = 14 \/ k = 15 \/ k = 16 \/ k = 17 \/ k = 18 \/ k = 19
              \/ k = 20) as Hk' by lia.
      clear Hexact Hk Hrange.
      repeat (destruct Hk' as [Hk' | Hk']; [rewrite Hk' in Hhalf; lia |]).
      rewrite Hk' in Hhalf. lia. }
    subst k.
    destruct Hcases as [-> | [-> | ->]]; vm_compute; reflexivity.
Qed.

(** C7, as the claim states it, fails for a demand of 23 and 39
    audiobooks: the quotient [23 / 40 * 100] is 57.5 and rounds to 58, but
    the double [23 / 40] times 100 is the double just below 57.5, and
    [getOpportunityScore] returns 57. *)
Lemma C7_counterexample :
  error halfway = None
  /\ estimatedTrendsInterest halfway = 23 /\ audiobooks halfway = 39
  /\ 2 * (estimatedTrendsInterest halfway * 100)
     = 115 * (audiobooks halfway + 1)
  /\ round_div (estimatedTrendsInterest halfway * 100)
       (audiobooks halfway + 1) = 58
  /\ getOpportunityScore halfway = Some 57.
Proof. repeat split; vm_compute; reflexivity. Qed.

(** C7 (amended). A row without error, with a count that is not negative
    and a demand from 0 to 100, has the score [Math.round (demand / (supply
    + 1) * 100)] as doubles give it: the exact quotient rounded half up,
    or, only where the exact quotient is half an integer, possibly one
    less; it is the exact quotient rounded half up for every row whose
    demand is derived from its count.  A row with an error message has no
    score.  With no audiobook found the score is 100 times the demand;
    with 499 found and a demand of 99 it is 20. *)
Theorem C7_opportunity_score r :
  (error r = None -> 0 <= audiobooks r ->
   0 <= estimatedTrendsInterest r <= 100 ->
   exists s,
     getOpportunityScore r = Some s
     /\ s = Math_round
              (times (divide (estimatedTrendsInterest r) (audiobooks r + 1))
                 100)
     /\ round_div (estimatedTrendsInterest r * 100) (audiobooks r + 1) - 1
        <= s <= round_div (estimatedTrendsInterest r * 100) (audiobooks r + 1)
     /\ (200 * estimatedTrendsInterest r
         <> (2 * round_div (estimatedTrendsInterest r * 100)
                   (audiobooks r + 1) - 1) * (audiobooks r + 1) ->
         s = round_div (estimatedTrendsInterest r * 100) (audiobooks r + 1)))
  /\ (error r = None -> 0 <= audiobooks r ->
      estimatedTrendsInterest r = computeTrendsInterest (audiobooks r) ->
      getOpportunityScore r
      = Some (round_div (estimatedTrendsInterest r * 100) (audiobooks r + 1)))
  /\ (forall msg, error r = Some msg -> msg <> EmptyString ->
        getOpportunityScore r = None)
  /\ (error r = None -> audiobooks r = 0 ->
      0 <= estimatedTrendsInterest r <= 100 ->
      getOpportunityScore r = Some (estimatedTrendsInterest r * 100))
  /\ (error r = None -> audiobooks r = 499 -> estimatedTrendsInterest r = 99 ->
        getOpportunityScore r = Some 20).
Proof.
  unfold getOpportunityScore. split; [| split; [| split; [| split]]].
  - intros Herr Hsup Hdem. rewrite Herr. cbn [truthy].
    destruct (score_window _ _ Hdem Hsup) as [Hrange Hexact].
    eexists. split; [reflexivity |]. split; [reflexivity |].
    split; [exact Hrange | exact Hexact].
  - intros Herr Hsup Hdem. rewrite Herr. cbn [truthy].
    rewrite Hdem. f_equal. apply score_pushed. exact Hsup.
  - intros msg Herr Hmsg. rewrite Herr.
    destruct msg; [congruence | reflexivity].
  - intros Herr Hsup Hdem. rewrite Herr, Hsup. cbn [truthy].
    destruct (score_window (estimatedTrendsInterest r) 0 Hdem ltac:(lia))
      as [_ Hexact].
    assert (round_div (estimatedTrendsInterest r * 100) (0 + 1)
            = estimatedTrendsInterest r * 100) as Hk.
    { change (0 + 1) with 1.
      replace (estimatedTrendsInterest r * 100)
        with (estimatedTrendsInterest r * 100 * 1) at 1 by lia.
      apply round_div_exact. lia. }
    rewrite Hk in Hexact. f_equal. apply Hexact. lia.
  - intros Herr Hsup Hdem. rewrite Herr, Hsup, Hdem. reflexivity.
Qed.

Lemma C7_witness :
  getOpportunityScore (okResult [] "2 Nov" "mystery"
                         {| Api.audiobooks :=
                              Some {| Api.items := None;
                                      Api.total := Some 24 |} |})
  = Some 20
  /\ getOpportunityScore (failedResult "2 Nov" "mystery" "API error: 500")
     = None.
Proof.
  split.
  - rewrite (proj1 (proj2 (C7_opportunity_score
                             (okResult [] "2 Nov" "mystery"
                                {| Api.audiobooks :=
                                     Some {| Api.items := None;
                                             Api.total := Some 24 |} |})))
               eq_refl ltac:(vm_compute; discriminate) eq_refl).
    reflexivity.
  - apply (proj1 (proj2 (proj2 (C7_opportunity_score
                                  (failedResult "2 Nov" "mystery"
                                     "API error: 500"))))
             "API error: 500" eq_refl).
    discriminate.
Defined.

(* ------------------------------------------------------------------ *)
(** ** Ranking *)

Lemma insertSorted_perm cmp a l : Permutation (a :: l) (insertSorted cmp a l).
Proof.
  induction l as [| b l IH]; simpl.
  - apply Permutation_refl.
  - destruct (cmp a b <=? 0).
    + apply Permutation_refl.
    + eapply perm_trans; [apply perm_swap |].
      apply perm_skip. exact IH.
Qed.

(** The ranking rearranges the rows; none is lost or added. *)
Lemma sortedByOpportunity_perm rs : Permutation rs (sortedByOpportunity rs).
Proof.
  unfold sortedByOpportunity, stableSort.
  induction rs as [| a rs IH]; simpl.
  - apply perm_nil.
  - eapply perm_trans; [apply perm_skip; exact IH |].
    apply insertSorted_perm.
Qed.

Lemma insertSorted_sorted a l :
  StronglySorted (fun p q => scoreOrMinusOne q <= scoreOrMinusOne p) l ->
  StronglySorted (fun p q => scoreOrMinusOne q <= scoreOrMinusOne p)
    (insertSorted compareFn a l).
Proof.
  induction l as [| b l IH]; intros Hs; simpl.
  - constructor; constructor.
  - inversion Hs as [| ? ? Hs' Hall]; subst.
    unfold compareFn at 1.
    destruct (scoreOrMinusOne b - scoreOrMinusOne a <=? 0) eqn:Hcmp.
    + apply Z.leb_le in Hcmp. constructor; [exact Hs |].
      constructor; [lia |].
      eapply Forall_impl; [| exact Hall]. simpl. intros; lia.
    + apply Z.leb_gt in Hcmp. constructor; [apply IH; exact Hs' |].
      eapply Permutation_Forall; [apply insertSorted_perm |].
      constructor; [lia | exact Hall].
Qed.

(** The ranking is in descending order of [score || -1]. *)
Lemma sortedByOpportunity_sorted rs :
  StronglySorted (fun p q => scoreOrMinusOne q <= scoreOrMinusOne p)
    (sortedByOpportunity rs).
Proof.
  unfold sortedByOpportunity, stableSort.
  induction rs as [| a rs IH]; simpl.
  - constructor.
  - apply insertSorted_sorted. exact IH.
Qed.

Lemma insertSorted_filter k a l :
  StronglySorted (fun p q => scoreOrMinusOne q <= scoreOrMinusOne p) l ->
  filter (fun r => scoreOrMinusOne r =? k) (insertSorted compareFn a l)
  = filter (fun r => scoreOrMinusOne r =? k) (a :: l).
Proof.
  induction l as [| b l IH]; intros Hs; [reflexivity |].
  inversion Hs as [| ? ? Hs' Hall]; subst.
  simpl insertSorted. unfold compareFn at 1.
  destruct (scoreOrMinusOne b - scoreOrMinusOne a <=? 0) eqn:Hcmp;
    [reflexivity |].
  apply Z.leb_gt in Hcmp.
  change (filter ?f (b :: ?t)) with (if f b then b :: filter f t else filter f t).
  rewrite (IH Hs'). simpl.
  destruct (scoreOrMinusOne b =? k) eqn:Hb;
    destruct (scoreOrMinusOne a =? k) eqn:Ha; try reflexivity.
  apply Z.eqb_eq in Hb, Ha. lia.
Qed.

(** The ranking is stable: rows of equal [score || -1] keep the order they
    have in the snapshot. *)
Lemma sortedByOpportunity_stable k rs :
  filter (fun r => scoreOrMinusOne r =? k) (sortedByOpportunity rs)
  = filter (fun r => scoreOrMinusOne r =? k) rs.
Proof.
  induction rs as [| a rs IH]; [reflexivity |].
  change (sortedByOpportunity (a :: rs))
    with (insertSorted compareFn a (sortedByOpportunity rs)).
  rewrite insertSorted_filter by apply sortedByOpportunity_sorted.
  simpl. rewrite IH. reflexivity.
Qed.

(** A snapshot in which every row has an error keeps its order. *)
Lemma sortedByOpportunity_all_failed rs :
  Forall (fun r => truthy (error r) = true) rs ->
  sortedByOpportunity rs = rs.
Proof.
  intros Hall.
  assert (forall l, Forall (fun r => scoreOrMinusOne r = -1) l ->
                    filter (fun r => scoreOrMinusOne r =? -1) l = l) as Hid.
  { induction l as [| b l IH]; intros Hl; [reflexivity |].
    inversion Hl; subst. simpl.
    replace (scoreOrMinusOne b =? -1) with true by (symmetry; lia).
    f_equal. auto. }
  assert (Forall (fun r => scoreOrMinusOne r = -1) rs) as Hkeys.
  { eapply Forall_impl; [| exact Hall]. simpl. intros r Hr.
    unfold scoreOrMinusOne, getOpportunityScore. rewrite Hr. reflexivity. }
  rewrite <- (Hid (sortedByOpportunity rs)).
  - rewrite sortedByOpportunity_stable. apply Hid. exact Hkeys.
  - eapply Permutation_Forall; [apply sortedByOpportunity_perm | exact Hkeys].
Qed.

(** C6, at a snapshot whose first keyword failed and whose second found
    nothing: the second row has the computed score 0 and the first none,
    yet the ranking leaves the failed row first, [0 || -1] being [-1]. *)
Theorem C6_zero_score_ranked_with_failed :
  exists failed zero,
    results brokenThenSilent = [failed; zero]
    /\ error failed = Some "API error: 500"
    /\ getOpportunityScore failed = None
    /\ error zero = None
    /\ getOpportunityScore zero = Some 0
    /\ sortedByOpportunity (results brokenThenSilent) = [failed; zero].
Proof.
  do 2 eexists. split; [vm_compute; reflexivity |].
  repeat split; vm_compute; reflexivity.
Qed.

(* ------------------------------------------------------------------ *)
(** ** Summary statistic *)

(** Every snapshot that [handleSearch] leaves satisfies the invariant. *)
Lemma handleSearch_zeroed st today fetch :
  failedRowsZeroed (results st) ->
  failedRowsZeroed (results (handleSearch st today fetch)).
Proof.
  intros Hst. unfold handleSearch.
  destruct (negb (nonempty (trim (accessToken st)))); [exact Hst |].
  destruct (Nat.eqb _ 0); [exact Hst |].
  pose proof (searchLoop_Forall (previousResults st) today fetch _
                (searchOne_zeroed (previousResults st) today)
                (keywordList (keywords st)) 0 [] (Forall_nil _)) as H.
  destruct (searchLoop _ _ _ _ _ _) as [rows expired]. exact H.
Qed.

Lemma popularityTotal_sum rs : popularityTotal rs = sumAvgPopularity rs.
Proof.
  unfold popularityTotal, sumAvgPopularity.
  rewrite fold_left_add_shift, Z.add_0_l.
  f_equal. apply map_ext. intros r. simpl.
  destruct (avgPopularity r); reflexivity.
Qed.

Lemma sumAvgPopularity_withoutError rs :
  failedRowsZeroed rs ->
  sumAvgPopularity rs = sumAvgPopularity (withoutError rs).
Proof.
  unfold sumAvgPopularity, withoutError.
  induction 1 as [| r rs Hr _ IH]; [reflexivity |].
  simpl. destruct (truthy (error r)); simpl.
  - rewrite (Hr eq_refl). exact IH.
  - rewrite IH. reflexivity.
Qed.

(** C8. The summary is 0 for the empty snapshot; for a snapshot with at
    least one row without error it is the rounded mean of [avgPopularity]
    over the rows without error; for a snapshot of rows that all have an
    error, where that mean is the quotient of 0 by 0, it is no number. *)
Theorem C8_summary_average rs :
  failedRowsZeroed rs ->
  avgPopularityScore [] = Some 0
  /\ (withoutError rs <> [] ->
      avgPopularityScore rs
      = Some (round_div (sumAvgPopularity (withoutError rs))
                (Z.of_nat (List.length (withoutError rs)))))
  /\ (rs <> [] -> withoutError rs = [] -> avgPopularityScore rs = None).
Proof.
  intros Hinv. split; [reflexivity |]. split.
  2:{ intros Hne Hnone. unfold avgPopularityScore. rewrite Hnone.
      destruct rs; [congruence | reflexivity]. }
  intros Hsome. unfold avgPopularityScore.
  destruct rs as [| r rs]; [contradiction Hsome; reflexivity |].
  replace (0 <? Z.of_nat (List.length (r :: rs))) with true
    by (symmetry; apply Z.ltb_lt; simpl List.length; lia).
  replace (Z.of_nat (List.length (withoutError (r :: rs))) =? 0) with false.
  - rewrite popularityTotal_sum, (sumAvgPopularity_withoutError _ Hinv).
    reflexivity.
  - symmetry. apply Z.eqb_neq.
    destruct (withoutError (r :: rs)); [congruence | simpl List.length; lia].
Qed.

Lemma C8_witness :
  avgPopularityScore [] = Some 0
  /\ avgPopularityScore (results (handleSearch three "2 Nov" failsAtSecond))
     = Some 55.
Proof.
  destruct (C8_summary_average (results (handleSearch three "2 Nov" failsAtSecond)))
    as (Hempty & Hmean & _).
  - apply handleSearch_zeroed. constructor.
  - split; [exact Hempty |].
    rewrite Hmean; [reflexivity | vm_compute; discriminate].
Defined.

(* ------------------------------------------------------------------ *)
(** ** CSV export *)

Lemma append_assoc (a b c : string) : ((a ++ b) ++ c = a ++ (b ++ c))%string.
Proof. induction a as [| ch a IH]; simpl; [reflexivity | now rewrite IH]. Qed.


Lemma numToString_neg p :
  numToString (Zneg p) = ("-" ++ numToString (Zpos p))%string.
Proof. reflexivity. Qed.

Lemma trendCell_text n : cellToString (trendCell (Some n)) = signedTrend n.
Proof. destruct n; reflexivity. Qed.

(** C9. The export is the header line followed by one line per row, in
    order.  Each line is its seven cells, every one between double quotes,
    joined by commas.  The cells of a row with an error message are the
    keyword, [Error], four times [-], and the message; the cells of a row
    without error are the keyword, the three numbers, the two trends and
    [OK], a trend being written with [+] if positive, with its minus sign
    if negative, and as a bare [0] if zero. *)
Theorem C9_csv_rows rs :
  downloadCSV rs = join nl (join "," csvHeaders :: map csvLine rs)
  /\ forall r, In r rs ->
       exists cells,
         List.length cells = 7%nat
         /\ csvLine r
            = join "," (map (fun c => dquote ++ c ++ dquote)%string cells)
         /\ (forall msg, error r = Some msg -> msg <> EmptyString ->
               cells = [keyword r; "Error"; "-"; "-"; "-"; "-"; msg])
         /\ (forall pt st,
               error r = None ->
               popularityTrend r = Some pt -> supplyTrend r = Some st ->
               cells = [keyword r; numToString (audiobooks r);
                        numToString (avgPopularity r);
                        numToString (estimatedTrendsInterest r);
                        signedTrend pt; signedTrend st; "OK"])
         /\ signedTrend 15 = "+15" /\ signedTrend (-2) = "-2"
         /\ signedTrend 0 = "0".
Proof.
  split; [reflexivity |].
  intros r _. exists (map cellToString (csvCells r)).
  split; [reflexivity |]. split.
  { unfold csvLine. rewrite map_map. reflexivity. }
  split; [| split; [| repeat split]].
  - intros msg Herr Hmsg. unfold csvCells. rewrite Herr.
    destruct msg; [congruence | reflexivity].
  - intros pt st Herr Hpt Hst. unfold csvCells.
    rewrite Herr, Hpt, Hst. cbn [truthy map].
    rewrite !trendCell_text. reflexivity.
Qed.

Lemma C9_witness :
  csvLine (failedResult "2 Nov" "mystery" "API error: 500")
  = join "," (map (fun c => dquote ++ c ++ dquote)%string
                ["mystery"; "Error"; "-"; "-"; "-"; "-"; "API error: 500"])
  /\ csvLine (okResult [] "2 Nov" "fantasy"
                {| Api.audiobooks :=
                     Some {| Api.items := None; Api.total := Some 24 |} |})
     = join "," (map (fun c => dquote ++ c ++ dquote)%string
                   ["fantasy"; "24"; "50"; "5"; "0"; "0"; "OK"]).
Proof.
  split.
  - destruct (proj2 (C9_csv_rows [failedResult "2 Nov" "mystery" "API error: 500"])
                _ (or_introl eq_refl))
      as (cells & _ & Hline & Hfailed & _).
    rewrite Hline, (Hfailed "API error: 500" eq_refl); [reflexivity |].
    discriminate.
  - destruct (proj2 (C9_csv_rows
                       [okResult [] "2 Nov" "fantasy"
                          {| Api.audiobooks :=
                               Some {| Api.items := None;
                                       Api.total := Some 24 |} |}])
                _ (or_introl eq_refl))
      as (cells & _ & Hline & _ & Hok & _).
    rewrite Hline, (Hok 0 0 eq_refl eq_refl eq_refl). reflexivity.
Defined.

(* ================================================================== *)
(** * Further properties *)

(** ** The keyword list *)

Lemma filter_after_map {A B} (f : A -> B) (p : B -> bool) (l : list A) :
  filter p (map f l) = map f (filter (fun a => p (f a)) l).
Proof.
  induction l as [| a l IH]; simpl; [reflexivity |].
  destruct (p (f a)); simpl; rewrite IH; reflexivity.
Qed.

Lemma split_lines_no_newline s :
  Forall (fun l => ~ In newline (chars l)) (split_lines s).
Proof.
  induction s as [| c s IH]; simpl.
  - constructor; [intros [] | constructor].
  - destruct (Ascii.eqb c newline) eqn:Hc.
    + constructor; [intros [] | exact IH].
    + apply Ascii.eqb_neq in Hc.
      destruct (split_lines s) as [| l ls].
      * constructor; [| constructor]. simpl. intros [H | []]. congruence.
      * inversion IH as [| ? ? Hl Hls]; subst.
        constructor; [| exact Hls].
        simpl. intros [H | H]; [congruence | exact (Hl H)].
Qed.

Lemma trimStart_incl s c : In c (chars (trimStart s)) -> In c (chars s).
Proof.
  induction s as [| d s IH]; simpl; [auto |].
  destruct (is_ws d); simpl; auto.
Qed.

Lemma trimEnd_incl s c : In c (chars (trimEnd s)) -> In c (chars s).
Proof.
  induction s as [| d s IH]; simpl; [auto |].
  destruct (trimEnd s) as [| e t].
  - destruct (is_ws d); simpl; [intros [] | intros [H | []]; auto].
  - simpl. intros [H | H]; [auto | right; apply IH; exact H].
Qed.

Lemma trimStart_head s c t : trimStart s = String c t -> is_ws c = false.
Proof.
  induction s as [| d s IH]; simpl; [discriminate |].
  destruct (is_ws d) eqn:Hd; [exact IH |].
  intros [= <- _]. exact Hd.
Qed.

Lemma trimEnd_head c s :
  is_ws c = false -> exists t, trimEnd (String c s) = String c t.
Proof.
  intros Hc. simpl. destruct (trimEnd s).
  - rewrite Hc. eexists; reflexivity.
  - eexists; reflexivity.
Qed.

Lemma trimEnd_idem s : trimEnd (trimEnd s) = trimEnd s.
Proof.
  induction s as [| c s IH]; simpl; [reflexivity |].
  destruct (trimEnd s) as [| d t] eqn:Ht.
  - destruct (is_ws c) eqn:Hc; simpl; [reflexivity |].
    rewrite Hc. reflexivity.
  - change (trimEnd (String c (String d t)))
      with (match trimEnd (String d t) with
            | EmptyString =>
                if is_ws c then EmptyString else String c EmptyString
            | String e u => String c (String e u)
            end).
    rewrite IH. reflexivity.
Qed.

Lemma trim_idem s : trim (trim s) = trim s.
Proof.
  unfold trim.
  destruct (trimStart s) as [| c t] eqn:Hs; [reflexivity |].
  pose proof (trimStart_head _ _ _ Hs) as Hc.
  destruct (trimEnd_head c t Hc) as [u Hu]. rewrite Hu.
  simpl trimStart. rewrite Hc. rewrite <- Hu. apply trimEnd_idem.
Qed.

(** X1. Every keyword that [handleSearch] searches for is non-empty, is
    left unchanged by a further [trim], begins with a character that is
    not white space, and contains no line break. *)
Theorem keywordList_trimmed text :
  Forall (fun kw =>
            kw <> EmptyString
            /\ trim kw = kw
            /\ (forall c t, kw = String c t -> is_ws c = false)
            /\ ~ In newline (chars kw))
    (keywordList text).
Proof.
  unfold keywordList. rewrite filter_after_map.
  apply Forall_forall. intros kw Hin.
  apply in_map_iff in Hin. destruct Hin as (line & <- & Hline).
  apply filter_In in Hline. destruct Hline as [Hline Hne].
  repeat split.
  - intros E. rewrite E in Hne. discriminate.
  - apply trim_idem.
  - intros c t Heq. unfold trim in Heq.
    destruct (trimStart line) as [| d u] eqn:Hs; [discriminate |].
    pose proof (trimStart_head _ _ _ Hs) as Hd.
    destruct (trimEnd_head d u Hd) as [v Hv].
    rewrite Hv in Heq. injection Heq as <- _. exact Hd.
  - intros Hnl. unfold trim in Hnl.
    apply trimEnd_incl, trimStart_incl in Hnl.
    pose proof (split_lines_no_newline text) as Hall.
    rewrite Forall_forall in Hall. exact (Hall line Hline Hnl).
Qed.

(** X2. The number shown under the text area is the number of keywords a
    run searches for. *)
Theorem keywordCount_keywordList text :
  keywordCount text = List.length (keywordList text).
Proof.
  unfold keywordCount, keywordList.
  rewrite filter_after_map, length_map. reflexivity.
Qed.

(* ------------------------------------------------------------------ *)
(** ** Runs that are turned down, and runs in general *)

Lemma handleSearch_turned_down st today fetch :
  trim (accessToken st) = EmptyString \/ keywordList (keywords st) = [] ->
  handleSearch st today fetch
  = setError st (if nonempty (trim (accessToken st))
                 then "Please enter at least one keyword"
                 else "Please request an access token first").
Proof.
  intros H. unfold handleSearch.
  destruct (nonempty (trim (accessToken st))) eqn:Htok; simpl.
  - destruct H as [H | H]; [rewrite H in Htok; discriminate |].
    rewrite H. reflexivity.
  - reflexivity.
Qed.

(** X3. Without a token, or without a keyword, [handleSearch] makes no
    request and keeps the snapshot, the saved snapshot and the flags; it
    only sets the message, the one about the token if both are missing. *)
Theorem handleSearch_rejected st today fetch :
  trim (accessToken st) = EmptyString \/ keywordList (keywords st) = [] ->
  let st' := handleSearch st today fetch in
  results st' = results st
  /\ previousResults st' = previousResults st
  /\ isSearching st' = isSearching st
  /\ showMatrix st' = showMatrix st
  /\ errorText st'
     = (if nonempty (trim (accessToken st))
        then "Please enter at least one keyword"
        else "Please request an access token first")
  /\ forall today' fetch', handleSearch st today' fetch' = st'.
Proof.
  intros H st'. subst st'.
  rewrite (handleSearch_turned_down _ _ _ H). repeat split.
  intros today' fetch'. apply handleSearch_turned_down. exact H.
Qed.

Lemma handleSearch_rejected_witness :
  let st := mounted "token" ("  " ++ nl ++ nl)%string in
  results (handleSearch st "2 Nov" failsAtSecond) = []
  /\ errorText (handleSearch st "2 Nov" failsAtSecond)
     = "Please enter at least one keyword".
Proof.
  destruct (handleSearch_rejected (mounted "token" ("  " ++ nl ++ nl)%string)
              "2 Nov" failsAtSecond (or_intror eq_refl))
    as (Hres & _ & _ & _ & Herr & _).
  split; [exact Hres | exact Herr].
Defined.

Section LoopPrefix.

Variable prev : list Result.
Variable today : string.
Variable fetch : Fetch.

(** Whatever the answers, the loop pushes the rows of a prefix of the
    keywords, each row that of its own request, and stops early exactly at
    a keyword whose request is answered with status 401. *)
Lemma searchLoop_prefix kws :
  forall i acc,
  exists rows expired,
    searchLoop prev today fetch i kws acc = (acc ++ rows, expired)
    /\ map keyword rows = firstn (List.length rows) kws
    /\ (forall j kw, nth_error kws j = Some kw ->
          (j < List.length rows)%nat ->
          nth_error rows j = searchOne prev today kw (fetch (i + j)%nat kw))
    /\ (expired = false -> List.length rows = List.length kws)
    /\ (expired = true ->
        exists kw, nth_error kws (List.length rows) = Some kw
                   /\ unauthorized (fetch (i + List.length rows)%nat kw) = true).
Proof.
  induction kws as [| kw rest IH]; intros i acc.
  - exists [], false. rewrite app_nil_r. repeat split; auto.
    + intros j kw _ Hj. inversion Hj.
    + discriminate.
  - simpl.
    destruct (searchOne prev today kw (fetch i kw)) as [r |] eqn:Hone.
    + destruct (IH (S i) (acc ++ [r]))
        as (rows & expired & Hloop & Hkw & Hnth & Hdone & Hexp).
      exists (r :: rows), expired. rewrite Hloop, <- app_assoc. simpl.
      repeat split.
      * f_equal; [apply (searchOne_keyword _ _ _ _ _ Hone) | exact Hkw].
      * intros [| j] kw' Hj Hlt; simpl in *.
        -- injection Hj as <-. rewrite Nat.add_0_r. auto.
        -- rewrite Nat.add_succ_r, <- Nat.add_succ_l. apply Hnth; [exact Hj | lia].
      * intros E. rewrite (Hdone E). reflexivity.
      * intros E. destruct (Hexp E) as (kw' & Hk & H401).
        exists kw'. split; [exact Hk |].
        rewrite Nat.add_succ_r, <- Nat.add_succ_l. exact H401.
    + exists [], true. rewrite app_nil_r. repeat split; auto.
      * intros j kw' _ Hj. inversion Hj.
      * discriminate.
      * intros _. exists kw. split; [reflexivity |].
        rewrite Nat.add_0_r. apply (searchOne_None prev today kw). exact Hone.
Qed.

End LoopPrefix.

(** X4. After any run that is not turned down, whatever the answers of the
    search: the snapshot holds the rows of the first [n] keywords, in
    order, each row the one its own request gives; all keywords were
    searched exactly when no message is shown; otherwise the first keyword
    without a row is one whose request was answered with status 401. *)
Theorem handleSearch_prefix st today fetch :
  trim (accessToken st) <> EmptyString ->
  keywordList (keywords st) <> [] ->
  let st' := handleSearch st today fetch in
  let kws := keywordList (keywords st) in
  let n := List.length (results st') in
  map keyword (results st') = firstn n kws
  /\ (n <= List.length kws)%nat
  /\ (forall j kw, nth_error kws j = Some kw -> (j < n)%nat ->
        nth_error (results st') j
        = searchOne (previousResults st) today kw (fetch j kw))
  /\ (errorText st' = EmptyString <-> n = List.length kws)
  /\ (n <> List.length kws ->
      errorText st' = "Token expired. Request a new one."
      /\ exists kw, nth_error kws n = Some kw
                    /\ unauthorized (fetch n kw) = true).
Proof.
  intros Htok Hkws st' kws n. subst st' n.
  rewrite (handleSearch_run _ _ _ Htok Hkws).
  destruct (searchLoop_prefix (previousResults st) today fetch
              (keywordList (keywords st)) 0 [])
    as (rows & expired & Hloop & Hkw & Hnth & Hdone & Hexp).
  fold kws in Hloop, Hkw, Hnth, Hdone, Hexp |- *.
  rewrite Hloop. simpl.
  assert (List.length rows <= List.length kws)%nat as Hle.
  { apply (f_equal (@List.length _)) in Hkw.
    rewrite length_map, length_firstn in Hkw. lia. }
  split; [exact Hkw |]. split; [exact Hle |]. split; [exact Hnth |].
  destruct expired.
  - destruct (Hexp eq_refl) as (kw & Hk & H401).
    assert (List.length rows < List.length kws)%nat as Hlt.
    { apply nth_error_Some. congruence. }
    split; [split; [discriminate | lia] |].
    intros _. split; [reflexivity |]. exists kw. auto.
  - split; [split; auto |]. intros Hn. contradiction Hn. auto.
Qed.

Lemma handleSearch_prefix_witness :
  map keyword (results (handleSearch five "2 Nov" expiresAtThird))
  = ["a"; "b"].
Proof.
  refine (proj1 (handleSearch_prefix five "2 Nov" expiresAtThird _ _)).
  - vm_compute. discriminate.
  - vm_compute. discriminate.
Defined.

(* ------------------------------------------------------------------ *)
(** ** Invariants of the snapshot *)

(** What holds of every row the body of the loop can push is an invariant
    of the snapshot under [handleSearch]. *)
Lemma handleSearch_Forall (P : Result -> Prop) st today fetch :
  (forall prev kw resp r, searchOne prev today kw resp = Some r -> P r) ->
  Forall P (results st) ->
  Forall P (results (handleSearch st today fetch)).
Proof.
  intros Hone Hst. unfold handleSearch.
  destruct (negb (nonempty (trim (accessToken st)))); [exact Hst |].
  destruct (Nat.eqb _ 0); [exact Hst |].
  pose proof (searchLoop_Forall (previousResults st) today fetch P
                (Hone (previousResults st))
                (keywordList (keywords st)) 0 [] (Forall_nil _)) as H.
  destruct (searchLoop _ _ _ _ _ _) as [rows expired]. exact H.
Qed.

Lemma searchOne_shaped prev today kw resp r :
  searchOne prev today kw resp = Some r -> okShaped r \/ failedShaped r.
Proof.
  assert (forall m, failedShaped (failedResult today kw m)) as Hfailed.
  { intros m. unfold failedShaped. simpl. repeat split. exists m. reflexivity. }
  searchOne_cases resp; intros [= <-]; auto.
  left. unfold okShaped. simpl. repeat split.
  do 2 eexists. split; reflexivity.
Qed.

(** X5. Every row of a snapshot is whole: either it has no error, both
    trends, a demand derived from its count, and the chart coordinates
    [x = audiobooks], [y = estimatedTrendsInterest], [size = 2 *
    avgPopularity]; or it has an error message, the count -1, popularity
    and demand 0, and none of the trends and coordinates. *)
Theorem handleSearch_shaped st today fetch :
  Forall (fun r => okShaped r \/ failedShaped r) (results st) ->
  Forall (fun r => okShaped r \/ failedShaped r)
    (results (handleSearch st today fetch)).
Proof.
  apply handleSearch_Forall. intros prev kw resp r.
  apply searchOne_shaped.
Qed.

Lemma handleSearch_shaped_witness :
  Forall (fun r => okShaped r \/ failedShaped r)
    (results (handleSearch three "2 Nov" failsAtSecond)).
Proof.
  apply (handleSearch_shaped three "2 Nov" failsAtSecond). constructor.
Defined.

Lemma round_div_mono n n' d :
  0 < d -> n <= n' -> round_div n d <= round_div n' d.
Proof.
  intros Hd Hn. unfold round_div. apply Z.div_le_mono; lia.
Qed.

Lemma round_div_nonneg n d : 0 < d -> 0 <= n -> 0 <= round_div n d.
Proof.
  intros Hd Hn. unfold round_div. apply Z.div_pos; lia.
Qed.

(** X6. The demand estimate never exceeds 100, is not negative for a count
    that is not negative, grows with the count, and is 100 from 498
    audiobooks on and below 100 before. *)
Theorem computeTrendsInterest_range count count' :
  computeTrendsInterest count <= 100
  /\ (0 <= count -> 0 <= computeTrendsInterest count)
  /\ (count <= count' ->
      computeTrendsInterest count <= computeTrendsInterest count')
  /\ (498 <= count <-> computeTrendsInterest count = 100).
Proof.
  unfold computeTrendsInterest. repeat split.
  - lia.
  - intros H. pose proof (round_div_nonneg count 5 ltac:(lia) H). lia.
  - intros H. pose proof (round_div_mono count count' 5 ltac:(lia) H). lia.
  - intros H.
    pose proof (round_div_mono 498 count 5 ltac:(lia) H) as Hm.
    change (round_div 498 5) with 100 in Hm. lia.
  - intros H. destruct (Z_lt_le_dec count 498) as [Hlt | Hge]; [| exact Hge].
    pose proof (round_div_mono count 497 5 ltac:(lia) ltac:(lia)) as Hm.
    change (round_div 497 5) with 99 in Hm. lia.
Qed.

Lemma popularitySum_bounds books :
  Forall (fun b => forall p, Api.popularity b = Some p -> 0 <= p <= 100) books ->
  Z.of_nat (List.length books) <= popularitySum books
  <= 100 * Z.of_nat (List.length books).
Proof.
  unfold popularitySum. rewrite fold_left_add_shift, Z.add_0_l.
  induction 1 as [| b books Hb _ IH]; [simpl; lia |].
  simpl map. simpl fold_right.
  assert (1 <= or_default (Api.popularity b) 50 <= 100) as Hd.
  { unfold or_default. destruct (Api.popularity b) as [p |]; [| lia].
    specialize (Hb p eq_refl). destruct p; lia. }
  rewrite length_cons, Nat2Z.inj_succ. lia.
Qed.

(** X7. If every popularity value that is present lies between 0 and 100,
    the popularity score of a keyword lies between 1 and 100: it is never
    0, a popularity of 0 counting for 50. *)
Theorem computeAvgPopularity_range books :
  Forall (fun b => forall p, Api.popularity b = Some p -> 0 <= p <= 100) books ->
  1 <= computeAvgPopularity books <= 100.
Proof.
  intros Hall. unfold computeAvgPopularity.
  destruct (0 <? Z.of_nat (List.length books)) eqn:Hlen; [| lia].
  apply Z.ltb_lt in Hlen.
  pose proof (popularitySum_bounds books Hall) as Hsum.
  pose proof (round_div_bounds (popularitySum books)
                (Z.of_nat (List.length books)) Hlen) as Hr.
  set (s := round_div _ _) in *. set (n := Z.of_nat _) in *.
  set (t := popularitySum books) in *. nia.
Qed.

Lemma computeAvgPopularity_range_witness :
  1 <= computeAvgPopularity
         [ {| Api.popularity := Some 0 |}; {| Api.popularity := Some 1 |};
           {| Api.popularity := None |} ] <= 100.
Proof.
  apply computeAvgPopularity_range.
  repeat (apply Forall_cons;
          [intros p Hp; simpl in Hp; try discriminate;
           injection Hp as <-; lia |]).
  apply Forall_nil.
Defined.

(* ------------------------------------------------------------------ *)
(** ** Trends *)

Lemma findPrev_first before p after kw :
  Forall (fun q => keyword q <> kw) before -> keyword p = kw ->
  findPrev (before ++ p :: after) kw = Some p.
Proof.
  intros Hbefore Hp. unfold findPrev.
  induction Hbefore as [| q before Hq _ IH]; simpl.
  - rewrite Hp, String.eqb_refl. reflexivity.
  - apply String.eqb_neq in Hq. rewrite Hq. exact IH.
Qed.

(** X8. Where the first row for the keyword in the list searched is a row
    of the [catch] block, the trends are no differences of measurements:
    the popularity trend is the new popularity itself and the supply trend
    the new count plus one.  The rows after that first one do not count,
    nor do the rows for other keywords before it. *)
Theorem okResult_against_failed before p after today kw data :
  Forall (fun q => keyword q <> kw) before ->
  keyword p = kw -> failedShaped p ->
  let r := okResult (before ++ p :: after) today kw data in
  popularityTrend r = Some (avgPopularity r)
  /\ supplyTrend r = Some (audiobooks r + 1)
  /\ r = okResult [p] today kw data.
Proof.
  intros Hbefore Hp (_ & Hcount & Hpop & _) r. subst r.
  unfold okResult.
  rewrite (findPrev_first before p after kw Hbefore Hp).
  pose proof (findPrev_first [] p [] kw (Forall_nil _) Hp) as Hone.
  cbn [app] in Hone. rewrite Hone.
  cbn [popularityTrend supplyTrend avgPopularity audiobooks].
  rewrite Hcount, Hpop.
  repeat split; f_equal; lia.
Qed.

Lemma okResult_against_failed_witness :
  let prev := [ okResult [] "1 Nov" "a" {| Api.audiobooks := None |};
                failedResult "1 Nov" "b" "API error: 500";
                okResult [] "1 Nov" "b" {| Api.audiobooks := None |} ] in
  let r := okResult prev "2 Nov" "b"
             {| Api.audiobooks :=
                  Some {| Api.items := None; Api.total := Some 7 |} |} in
  popularityTrend r = Some 50 /\ supplyTrend r = Some 8.
Proof.
  intros prev r.
  destruct (okResult_against_failed
              [ okResult [] "1 Nov" "a" {| Api.audiobooks := None |} ]
              (failedResult "1 Nov" "b" "API error: 500")
              [ okResult [] "1 Nov" "b" {| Api.audiobooks := None |} ]
              "2 Nov" "b"
              {| Api.audiobooks :=
                   Some {| Api.items := None; Api.total := Some 7 |} |})
    as (Hpop & Hsupply & _).
  - repeat constructor. discriminate.
  - reflexivity.
  - unfold failedShaped. simpl. repeat split. eexists. reflexivity.
  - split; [exact Hpop | exact Hsupply].
Defined.


(* ------------------------------------------------------------------ *)
(** ** Summary cards *)



(* ------------------------------------------------------------------ *)
(** ** Top opportunities *)

Lemma Permutation_filter {A} (f : A -> bool) (l l' : list A) :
  Permutation l l' -> Permutation (filter f l) (filter f l').
Proof.
  induction 1 as [| a l l' _ IH | a b l | l l' l'' _ IH1 _ IH2]; simpl.
  - apply perm_nil.
  - destruct (f a); [apply perm_skip |]; exact IH.
  - destruct (f a), (f b); try apply Permutation_refl. apply perm_swap.
  - eapply perm_trans; eassumption.
Qed.

Lemma StronglySorted_filter {A} (R : A -> A -> Prop) (f : A -> bool) l :
  StronglySorted R l -> StronglySorted R (filter f l).
Proof.
  induction 1 as [| a l _ IH Hall]; simpl; [constructor |].
  destruct (f a); [| exact IH].
  constructor; [exact IH |].
  apply Forall_forall. intros b Hb. apply filter_In in Hb.
  rewrite Forall_forall in Hall. apply Hall. tauto.
Qed.

Lemma In_firstn {A} (a : A) n :
  forall l, In a (firstn n l) -> In a l.
Proof.
  induction n as [| n IH]; intros [| b l]; simpl; try tauto.
  intros [H | H]; [left; exact H | right; apply IH; exact H].
Qed.

Lemma StronglySorted_firstn {A} (R : A -> A -> Prop) n :
  forall l, StronglySorted R l -> StronglySorted R (firstn n l).
Proof.
  induction n as [| n IH]; intros l Hs; [constructor |].
  destruct l as [| a l]; [constructor |].
  inversion Hs as [| ? ? Hs' Hall]; subst. simpl.
  constructor; [apply IH; exact Hs' |].
  apply Forall_forall. intros b Hb.
  rewrite Forall_forall in Hall. apply Hall.
  eapply In_firstn. exact Hb.
Qed.

Lemma filter_comm {A} (f g : A -> bool) (l : list A) :
  filter f (filter g l) = filter g (filter f l).
Proof.
  induction l as [| a l IH]; simpl; [reflexivity |].
  destruct (f a) eqn:Hf, (g a) eqn:Hg; simpl;
    rewrite ?Hf, ?Hg, IH; reflexivity.
Qed.

(** For a row without error, [score || -1] in terms of the score. *)
Lemma scoreOrMinusOne_scoreOf r :
  truthy (error r) = false ->
  getOpportunityScore r = Some (scoreOf r)
  /\ scoreOrMinusOne r = (if scoreOf r =? 0 then -1 else scoreOf r).
Proof.
  intros Herr. unfold scoreOrMinusOne, scoreOf, getOpportunityScore.
  rewrite Herr. split; [reflexivity |].
  destruct (Math_round _); reflexivity.
Qed.

Lemma scoreOf_nonneg r :
  truthy (error r) = false ->
  0 <= audiobooks r -> 0 <= estimatedTrendsInterest r -> 0 <= scoreOf r.
Proof.
  intros Herr Hs Hd. unfold scoreOf, getOpportunityScore. rewrite Herr.
  apply score_nonneg; assumption.
Qed.

Lemma measured_sorted rs : measured rs -> measured (sortedByOpportunity rs).
Proof.
  unfold measured. apply Permutation_Forall, sortedByOpportunity_perm.
Qed.

(** Among rows without error whose measurements are not negative, the order
    of [score || -1] is the order of the scores. *)
Lemma withoutError_sorted rs :
  measured rs ->
  StronglySorted (fun p q => scoreOf q <= scoreOf p)
    (withoutError (sortedByOpportunity rs)).
Proof.
  intros Hm. apply measured_sorted in Hm. unfold measured in Hm.
  pose proof (sortedByOpportunity_sorted rs) as Hs.
  induction Hs as [| a l _ IH Hall]; simpl; [constructor |].
  inversion Hm as [| ? ? Ha Hl]; subst.
  unfold withoutError in *. simpl.
  destruct (truthy (error a)) eqn:Hea; simpl; [apply IH; exact Hl |].
  constructor; [apply IH; exact Hl |].
  apply Forall_forall. intros b Hb. apply filter_In in Hb.
  destruct Hb as [Hb Heb]. apply negb_true_iff in Heb.
  rewrite Forall_forall in Hall, Hl.
  specialize (Hall b Hb). specialize (Hl b Hb Heb).
  destruct (scoreOrMinusOne_scoreOf a Hea) as [_ Hka].
  destruct (scoreOrMinusOne_scoreOf b Heb) as [_ Hkb].
  pose proof (scoreOf_nonneg a Hea (proj1 (Ha eq_refl)) (proj2 (Ha eq_refl))).
  pose proof (scoreOf_nonneg b Heb (proj1 Hl) (proj2 Hl)).
  rewrite Hka, Hkb in Hall.
  destruct (scoreOf a =? 0) eqn:Ea, (scoreOf b =? 0) eqn:Eb; lia.
Qed.

(** X11. The "top opportunities" are at most ten rows of the snapshot, as
    many as there are rows without error if these are fewer, and none of
    them has an error. *)
Theorem topOpportunities_rows rs :
  List.length (topOpportunities rs) = Nat.min 10 (validResults rs)
  /\ Forall (fun r => truthy (error r) = false) (topOpportunities rs)
  /\ incl (topOpportunities rs) rs.
Proof.
  unfold topOpportunities, validResults. repeat split.
  - rewrite length_firstn. f_equal. unfold withoutError.
    apply Permutation_length, Permutation_filter, Permutation_sym,
      sortedByOpportunity_perm.
  - apply Forall_forall. intros r Hr. apply In_firstn in Hr.
    apply filter_In in Hr. apply negb_true_iff. tauto.
  - intros r Hr. apply In_firstn in Hr. apply filter_In in Hr.
    eapply Permutation_in;
      [apply Permutation_sym, sortedByOpportunity_perm | tauto].
Qed.

(** X12. On a snapshot whose measurements are not negative, the top
    opportunities are in descending order of their scores, and rows with
    the same score are in the order of the snapshot: replacing the score 0
    by -1 for the comparison changes nothing among rows without error. *)
Theorem topOpportunities_ranked rs :
  measured rs ->
  StronglySorted (fun p q => scoreOf q <= scoreOf p) (topOpportunities rs)
  /\ forall s,
       filter (fun r => scoreOf r =? s) (withoutError (sortedByOpportunity rs))
       = filter (fun r => scoreOf r =? s) (withoutError rs).
Proof.
  intros Hm. split.
  { apply StronglySorted_firstn, withoutError_sorted, Hm. }
  intros s.
  assert (forall l, measured l ->
            filter (fun r => scoreOf r =? s) (withoutError l)
            = filter (fun r => (0 <=? s)
                               && (scoreOrMinusOne r
                                   =? (if s =? 0 then -1 else s)))
                (withoutError l)) as Hkey.
  { intros l Hl. apply filter_ext_in. intros r Hr.
    apply filter_In in Hr. destruct Hr as [Hr Her].
    apply negb_true_iff in Her.
    unfold measured in Hl. rewrite Forall_forall in Hl.
    specialize (Hl r Hr Her).
    pose proof (scoreOf_nonneg r Her (proj1 Hl) (proj2 Hl)).
    destruct (scoreOrMinusOne_scoreOf r Her) as [_ ->].
    destruct (Z.eqb_spec (scoreOf r) 0), (Z.eqb_spec s 0), (Z.leb_spec 0 s);
      cbn [andb];
      repeat match goal with
             | |- context [?a =? ?b] => destruct (Z.eqb_spec a b)
             end;
      cbn [andb]; try reflexivity; exfalso; lia. }
  rewrite (Hkey _ (measured_sorted _ Hm)), (Hkey _ Hm).
  destruct (0 <=? s); simpl.
  - unfold withoutError.
    rewrite filter_comm, sortedByOpportunity_stable, filter_comm.
    reflexivity.
  - rewrite !filter_false. reflexivity.
Qed.

Lemma topOpportunities_ranked_witness :
  StronglySorted (fun p q => scoreOf q <= scoreOf p)
    (topOpportunities (results (handleSearch three "2 Nov" failsAtSecond))).
Proof.
  apply (topOpportunities_ranked
           (results (handleSearch three "2 Nov" failsAtSecond))).
  vm_compute. repeat constructor; discriminate.
Defined.

(** X13. On a snapshot whose measurements are not negative, the "Best
    Opportunity" card shows the dash exactly when no row is without error,
    and otherwise the greatest score of the rows without error. *)
Theorem bestOpportunity_greatest rs :
  measured rs ->
  match bestOpportunity rs with
  | None => withoutError rs = []
  | Some shown =>
      exists top,
        In top rs /\ truthy (error top) = false
        /\ shown = Some (scoreOf top)
        /\ forall r, In r rs -> truthy (error r) = false ->
                     scoreOf r <= scoreOf top
  end.
Proof.
  intros Hm. pose proof (withoutError_sorted rs Hm) as Hs.
  assert (Permutation (withoutError rs) (withoutError (sortedByOpportunity rs)))
    as Hperm by apply Permutation_filter, sortedByOpportunity_perm.
  unfold bestOpportunity, topOpportunities.
  destruct (withoutError (sortedByOpportunity rs)) as [| top l] eqn:Hl.
  - simpl. apply Permutation_sym, Permutation_nil in Hperm. exact Hperm.
  - simpl.
    assert (In top (withoutError rs)) as Htop
        by (eapply Permutation_in;
            [apply Permutation_sym; exact Hperm | left; reflexivity]).
    apply filter_In in Htop. destruct Htop as [Hin Herr].
    apply negb_true_iff in Herr.
    exists top. repeat split; auto.
    + apply (scoreOrMinusOne_scoreOf top Herr).
    + intros r Hr Her.
      assert (In r (top :: l)) as Hrl.
      { eapply Permutation_in; [exact Hperm |].
        apply filter_In. split; [exact Hr |]. apply negb_true_iff. exact Her. }
      inversion Hs as [| ? ? _ Hall]; subst.
      destruct Hrl as [<- | Hrl]; [lia |].
      rewrite Forall_forall in Hall. apply Hall. exact Hrl.
Qed.

Lemma bestOpportunity_greatest_witness :
  let rs := results (handleSearch three "2 Nov" failsAtSecond) in
  match bestOpportunity rs with
  | None => withoutError rs = []
  | Some shown =>
      exists top,
        In top rs /\ truthy (error top) = false
        /\ shown = Some (scoreOf top)
        /\ forall r, In r rs -> truthy (error r) = false ->
                     scoreOf r <= scoreOf top
  end.
Proof.
  apply (bestOpportunity_greatest
           (results (handleSearch three "2 Nov" failsAtSecond))).
  vm_compute. repeat constructor; discriminate.
Defined.

Lemma sortedByOpportunity_all_failed_witness :
  sortedByOpportunity
    [failedResult "2 Nov" "a" "API error: 500";
     failedResult "2 Nov" "b" "Failed to fetch"]
  = [failedResult "2 Nov" "a" "API error: 500";
     failedResult "2 Nov" "b" "Failed to fetch"].
Proof.
  apply sortedByOpportunity_all_failed. repeat constructor.
Defined.

(* ------------------------------------------------------------------ *)
(** ** Chart and table *)

(** X14. The chart gets one colour per row without error, in the order of
    its data: the colour rendered at a position is the one of the row at
    that position of [results.filter(r => !r.error)]. *)
Theorem chartCells_aligned rs :
  Forall2 (fun colour r => cellColor r = Some colour)
    (rendered (chartCells rs)) (withoutError rs).
Proof.
  unfold chartCells, withoutError.
  induction rs as [| r rs IH]; [constructor |].
  cbn [map rendered filter].
  destruct (truthy (error r)) eqn:Herr; cbn [negb].
  - assert (cellColor r = None) as ->
        by (unfold cellColor; rewrite Herr; reflexivity).
    exact IH.
  - destruct (cellColor r) as [colour |] eqn:Hc.
    + constructor; [exact Hc | exact IH].
    + unfold cellColor in Hc. rewrite Herr in Hc. discriminate.
Qed.

(** X15. The "All Results" table writes a trend as the export does, and a
    row without error has in the table the first six cells of its line of
    the export; a row with an error has the keyword and five dashes, where
    the export has [Error] for the count. *)
Theorem tableCells_csvCells r :
  (forall t, tableTrend t = cellToString (trendCell t))
  /\ tableCells r
     = (if truthy (error r)
        then [keyword r; "-"; "-"; "-"; "-"; "-"]
        else firstn 6 (csvTexts r))
  /\ (truthy (error r) = true ->
      firstn 6 (csvTexts r) = [keyword r; "Error"; "-"; "-"; "-"; "-"]).
Proof.
  assert (forall t, tableTrend t = cellToString (trendCell t)) as Htrend.
  { intros [n |]; [| reflexivity]. unfold tableTrend, trendCell.
    destruct (0 <? n); reflexivity. }
  split; [exact Htrend |].
  unfold tableCells, csvTexts, csvCells.
  destruct (truthy (error r)); simpl.
  - split; reflexivity.
  - rewrite !Htrend. split; [reflexivity | discriminate].
Qed.

(* ------------------------------------------------------------------ *)
(** ** The text of the export, read back *)

Lemma chars_app a b : chars (a ++ b)%string = chars a ++ chars b.
Proof.
  induction a as [| c a IH]; simpl; [reflexivity |].
  unfold chars in *. simpl. rewrite IH. reflexivity.
Qed.

Lemma free_app bad a b : free bad a -> free bad b -> free bad (a ++ b)%string.
Proof.
  unfold free. rewrite chars_app. intros Ha Hb H.
  apply in_app_or in H. tauto.
Qed.

(** The digits and the sign of a number are the only characters of its
    text. *)
Lemma uint_free bad d :
  free bad "0123456789" -> free bad (NilEmpty.string_of_uint d).
Proof.
  unfold free. intros Hbad.
  induction d as [| d IH | d IH | d IH | d IH | d IH | d IH | d IH | d IH
                  | d IH | d IH];
    simpl; [intros [] | ..];
    (intros [E | E]; [apply Hbad; rewrite <- E; simpl; tauto | exact (IH E)]).
Qed.

Lemma numToString_free bad n :
  free bad "0123456789-" -> free bad (numToString n).
Proof.
  intros Hbad.
  assert (free bad "0123456789") as Hdigits.
  { unfold free in *. intros H. apply Hbad.
    change "0123456789-" with ("0123456789" ++ "-")%string.
    rewrite chars_app. apply in_or_app. left. exact H. }
  assert (forall d, free bad (NilZero.string_of_uint d)) as Huint.
  { intros d. unfold NilZero.string_of_uint.
    destruct d; try (apply uint_free; exact Hdigits).
    unfold free. simpl. intros [H | []]. apply Hdigits.
    rewrite <- H. simpl. tauto. }
  unfold numToString, NilZero.string_of_int.
  destruct (Z.to_int n) as [d | d]; [apply Huint |].
  change (String "-" (NilZero.string_of_uint d))
    with ("-" ++ NilZero.string_of_uint d)%string.
  apply free_app; [| apply Huint].
  unfold free. simpl. intros [H | []]. apply Hbad.
  rewrite <- H. simpl. tauto.
Qed.

(** A character that is absent from the fixed texts of the export and from
    the keyword and the message of a row is absent from all its cells. *)
Lemma csvTexts_free bad r :
  free bad "0123456789-+ErrorOKundefined" ->
  rowFree bad r -> Forall (free bad) (csvTexts r).
Proof.
  intros Hfixed [Hkw Hmsg].
  assert (forall s, incl (chars s) (chars "0123456789-+ErrorOKundefined") ->
                    free bad s) as Hsub.
  { intros s Hincl H. apply Hfixed. apply Hincl. exact H. }
  assert (free bad "0123456789-") as Hnum.
  { apply Hsub. intros c Hc. simpl in *. tauto. }
  assert (forall t, free bad (cellToString (trendCell t))) as Htrend.
  { intros [n |]; simpl.
    - destruct (0 <? n); simpl.
      + change (String "+" (numToString n)) with ("+" ++ numToString n)%string.
        apply free_app; [| apply numToString_free; exact Hnum].
        apply Hsub. intros c Hc. simpl in *. tauto.
      + apply numToString_free. exact Hnum.
    - apply Hsub. intros c Hc. simpl in *. tauto. }
  assert (free bad "Error" /\ free bad "-" /\ free bad "OK") as (HE & HD & HO).
  { repeat split; apply Hsub; intros c Hc; simpl in *; tauto. }
  unfold csvTexts, csvCells.
  destruct (error r) as [[| c m] |] eqn:Herr; simpl;
    repeat (apply Forall_cons || apply Forall_nil);
    auto using numToString_free.
Qed.

Lemma split_lines_line a b :
  free newline a ->
  split_lines (a ++ String newline b) = a :: split_lines b.
Proof.
  unfold free. induction a as [| c a IH]; simpl; intros Hfree.
  - reflexivity.
  - destruct (Ascii.eqb_spec c newline) as [-> | Hc]; [tauto |].
    rewrite IH by tauto. reflexivity.
Qed.

Lemma split_lines_last a : free newline a -> split_lines a = [a].
Proof.
  unfold free. induction a as [| c a IH]; simpl; intros Hfree.
  - reflexivity.
  - destruct (Ascii.eqb_spec c newline) as [-> | Hc]; [tauto |].
    rewrite IH by tauto. reflexivity.
Qed.

Lemma split_lines_join line lines :
  Forall (free newline) (line :: lines) ->
  split_lines (join nl (line :: lines)) = line :: lines.
Proof.
  revert line. induction lines as [| l lines IH]; intros line Hall.
  - inversion Hall; subst. apply split_lines_last. assumption.
  - inversion Hall as [| ? ? Hline Hrest]; subst.
    change (join nl (line :: l :: lines))
      with (line ++ String newline (join nl (l :: lines)))%string.
    rewrite split_lines_line by exact Hline.
    rewrite (IH l Hrest). reflexivity.
Qed.

Lemma join_free bad sep l :
  free bad sep -> Forall (free bad) l -> free bad (join sep l).
Proof.
  intros Hsep. induction 1 as [| a l Ha Hl IH].
  - intros [].
  - destruct l as [| b l]; [exact Ha |].
    change (join sep (a :: b :: l))
      with (a ++ sep ++ join sep (b :: l))%string.
    repeat apply free_app; auto.
Qed.

Lemma csvLine_free bad r :
  free bad "0123456789-+ErrorOKundefined" ->
  free bad "," -> free bad dquote ->
  rowFree bad r -> free bad (csvLine r).
Proof.
  intros Hfixed Hcomma Hquote Hrow. unfold csvLine.
  apply join_free; [exact Hcomma |].
  pose proof (csvTexts_free bad r Hfixed Hrow) as Hcells.
  unfold csvTexts in Hcells. rewrite Forall_map in Hcells |- *.
  eapply Forall_impl; [| exact Hcells]. simpl. intros c Hc.
  unfold quoteCell. repeat apply free_app; auto.
Qed.

Lemma free_by_computation bad s :
  forallb (fun c => negb (Ascii.eqb c bad)) (chars s) = true -> free bad s.
Proof.
  intros H Hin. rewrite forallb_forall in H. specialize (H bad Hin).
  rewrite Ascii.eqb_refl in H. discriminate.
Qed.

(** X16. If no keyword and no error message of the snapshot contains a line
    break, the export has one line per row after the header line: split at
    the line breaks, it is the header followed by the lines of the rows, in
    the order of the snapshot. *)
Theorem downloadCSV_lines rs :
  Forall (rowFree newline) rs ->
  split_lines (downloadCSV rs) = join "," csvHeaders :: map csvLine rs.
Proof.
  intros Hrows. unfold downloadCSV. apply split_lines_join.
  constructor.
  - apply free_by_computation. reflexivity.
  - rewrite Forall_map. eapply Forall_impl; [| exact Hrows]. simpl.
    intros r Hr.
    apply csvLine_free; auto; apply free_by_computation; reflexivity.
Qed.

Lemma downloadCSV_lines_witness :
  List.length
    (split_lines
       (downloadCSV (results (handleSearch three "2 Nov" failsAtSecond))))
  = 4%nat.
Proof.
  rewrite (downloadCSV_lines
             (results (handleSearch three "2 Nov" failsAtSecond))).
  - reflexivity.
  - vm_compute results.
    repeat (apply Forall_cons || apply Forall_nil);
      (split; [| intros m Hm; try discriminate; injection Hm as <-]);
      apply free_by_computation; reflexivity.
Defined.

Lemma untilQuote_cell cell rest :
  free quoteChar cell ->
  untilQuote (cell ++ String quoteChar rest) = Some (cell, rest).
Proof.
  unfold free. induction cell as [| c cell IH]; simpl; intros Hfree.
  - reflexivity.
  - destruct (Ascii.eqb_spec c quoteChar) as [-> | Hc]; [tauto |].
    rewrite IH by tauto. reflexivity.
Qed.

Lemma length_append a b :
  String.length (a ++ b) = (String.length a + String.length b)%nat.
Proof. induction a as [| c a IH]; simpl; [reflexivity | now rewrite IH]. Qed.

Lemma join_quoted_cons cell cell' cells :
  join "," (map (fun s => dquote ++ s ++ dquote)%string (cell :: cell' :: cells))
  = String quoteChar
      (cell ++ String quoteChar
         (String (ascii_of_nat 44)
            (join "," (map (fun s => dquote ++ s ++ dquote)%string
                         (cell' :: cells)))))%string.
Proof.
  change (join "," (map (fun s => dquote ++ s ++ dquote)%string
                      (cell :: cell' :: cells)))
    with ((dquote ++ cell ++ dquote)
          ++ "," ++ join "," (map (fun s => dquote ++ s ++ dquote)%string
                                (cell' :: cells)))%string.
  unfold dquote. simpl. f_equal. rewrite append_assoc. reflexivity.
Qed.

Lemma join_quoted_length cell cells :
  (List.length (cell :: cells)
   <= String.length
        (join "," (map (fun s => dquote ++ s ++ dquote)%string (cell :: cells))))%nat.
Proof.
  revert cell. induction cells as [| cell' cells IH]; intros cell.
  - simpl. lia.
  - rewrite join_quoted_cons. specialize (IH cell').
    set (rest := join "," _) in *.
    cbn [String.length]. rewrite length_append. cbn [String.length].
    cbn [List.length] in *. lia.
Qed.

(** A line of quoted cells that contain no double quote reads back as its
    cells. *)
Lemma readCells_join cells :
  forall cell fuel,
    Forall (free quoteChar) (cell :: cells) ->
    (List.length (cell :: cells) <= fuel)%nat ->
    readCells fuel
      (join "," (map (fun s => dquote ++ s ++ dquote)%string (cell :: cells)))
    = Some (cell :: cells).
Proof.
  induction cells as [| cell' cells IH]; intros cell fuel Hfree Hfuel;
    inversion Hfree as [| ? ? Hcell Hrest]; subst;
    (destruct fuel as [| fuel]; [simpl in Hfuel; lia |]).
  - change (join "," (map (fun s => dquote ++ s ++ dquote)%string [cell]))
      with (String quoteChar (cell ++ String quoteChar EmptyString))%string.
    cbn [readCells]. rewrite Ascii.eqb_refl.
    rewrite (untilQuote_cell cell EmptyString Hcell). reflexivity.
  - rewrite join_quoted_cons. cbn [readCells]. rewrite Ascii.eqb_refl.
    rewrite (untilQuote_cell cell _ Hcell). rewrite Ascii.eqb_refl.
    rewrite (IH cell' fuel Hrest) by (simpl in *; lia).
    reflexivity.
Qed.

(** The line of a row whose keyword and message contain no double quote
    reads back as the texts of its cells. *)
Lemma csvLine_readLine row :
  rowFree quoteChar row -> readLine (csvLine row) = Some (csvTexts row).
Proof.
  intros Hrow.
  assert (csvLine row
          = join "," (map (fun s => dquote ++ s ++ dquote)%string
                        (csvTexts row))) as Hline.
  { unfold csvLine, csvTexts. rewrite map_map. reflexivity. }
  pose proof (csvTexts_free quoteChar row
                ltac:(apply free_by_computation; reflexivity) Hrow) as Hfree.
  assert (exists cell cells, csvTexts row = cell :: cells)
    as (cell & cells & Hcells)
      by (unfold csvTexts, csvCells; simpl; eauto).
  unfold readLine. rewrite Hline, Hcells in *.
  apply readCells_join; [exact Hfree | apply join_quoted_length].
Qed.

(** X17. Where neither the keyword nor the error message of a row contains
    a double quote, the cells of its line of the export can be read back
    from the line; so two such rows with the same line have the same
    cells. *)
Theorem csvLine_readable r r' :
  rowFree quoteChar r -> rowFree quoteChar r' ->
  readLine (csvLine r) = Some (csvTexts r)
  /\ (csvLine r = csvLine r' -> csvTexts r = csvTexts r').
Proof.
  intros Hr Hr'. split; [apply csvLine_readLine; exact Hr |].
  intros Heq. pose proof (csvLine_readLine r Hr) as H1.
  pose proof (csvLine_readLine r' Hr') as H2.
  rewrite Heq in H1. congruence.
Qed.

Lemma csvLine_readable_witness :
  readLine (csvLine (failedResult "2 Nov" "sci-fi, space" "API error: 500"))
  = Some ["sci-fi, space"; "Error"; "-"; "-"; "-"; "-"; "API error: 500"].
Proof.
  refine (proj1 (csvLine_readable
                   (failedResult "2 Nov" "sci-fi, space" "API error: 500")
                   (failedResult "2 Nov" "sci-fi, space" "API error: 500")
                   _ _));
    (split; [| intros m Hm; injection Hm as <-]);
    apply free_by_computation; reflexivity.
Defined.

(* ------------------------------------------------------------------ *)
(** ** The token *)

Lemma nonempty_false s : nonempty s = false -> s = EmptyString.
Proof. destruct s; [reflexivity | discriminate]. Qed.

Lemma nonempty_true s : s <> EmptyString -> nonempty s = true.
Proof. destruct s; [congruence | reflexivity]. Qed.

(** X18. [requestAccessToken] leaves the error text empty exactly when it
    stores a token.  With a message shown, the token is the one that was
    there before.  With none, both credentials were filled in, the route
    answered the POST of the trimmed credentials with a status in 200..299
    and a readable body, the token is the [access_token] of that body, and
    the minutes shown are the [expires_in] seconds divided by 60 and
    rounded, at most half a minute off. *)
Theorem requestAccessToken_outcome st post :
  let st' := Token.requestAccessToken st post in
  (Token.error st' <> EmptyString ->
   Token.accessToken st' = Token.accessToken st)
  /\ (Token.error st' = EmptyString ->
      trim (Token.clientId st) <> EmptyString
      /\ trim (Token.clientSecret st) <> EmptyString
      /\ exists status data minutes,
           post (trim (Token.clientId st)) (trim (Token.clientSecret st))
           = Token.Response status (Token.JsonOk data)
           /\ Api.ok status = true
           /\ Token.accessToken st' = Token.access_token data
           /\ Token.tokenStatus st' = Token.Active minutes
           /\ forall seconds, Token.expires_in data = Some seconds ->
                exists m, minutes = Some m
                          /\ 60 * m - 30 <= seconds < 60 * m + 30).
Proof.
  intros st'. subst st'. unfold Token.requestAccessToken.
  destruct (nonempty (trim (Token.clientId st))) eqn:Hid;
    [| simpl; split; [reflexivity | discriminate]].
  destruct (nonempty (trim (Token.clientSecret st))) eqn:Hsecret;
    [| simpl; split; [reflexivity | discriminate]].
  simpl negb. cbv iota. simpl orb. cbv iota.
  destruct (post _ _) as [m | status [data | m]] eqn:Hpost;
    try (simpl; split; [reflexivity | discriminate]).
  - destruct (Api.ok status) eqn:Hok;
      cbn [negb Token.error Token.accessToken Token.tokenStatus Token.failed];
      [| split; [reflexivity | discriminate]].
    split; [congruence |]. intros _.
    split; [intros E; rewrite E in Hid; discriminate |].
    split; [intros E; rewrite E in Hsecret; discriminate |].
    do 3 eexists. repeat (split; [reflexivity || exact Hok |]).
    intros seconds Hsec. rewrite Hsec. eexists. split; [reflexivity |].
    pose proof (round_div_bounds seconds 60 ltac:(lia)). lia.
  - destruct (Api.ok status); simpl; split; reflexivity || discriminate.
Qed.

(** X19. The route answers with a status in 200..299 only with status 200
    and the body that the credentials-grant request returned with a status
    in 200..299, for a POST with both credentials present; every other
    answer is a refusal with an error text and no token. *)
Theorem handler_answers req spotify :
  let '(status, data) := Token.handler req spotify in
  (Api.ok status = true ->
   status = 200
   /\ Token.method req = "POST"
   /\ exists id secret upstream,
        Token.body_clientId req = Some id
        /\ Token.body_clientSecret req = Some secret
        /\ id <> EmptyString /\ secret <> EmptyString
        /\ Api.ok upstream = true
        /\ spotify id secret = Token.Response upstream (Token.JsonOk data))
  /\ (Api.ok status = false ->
      exists message, data = Token.refusal message).
Proof.
  unfold Token.handler.
  destruct (String.eqb_spec (Token.method req) "POST") as [Hm | Hm]; simpl;
    [| split; [discriminate | eauto]].
  destruct (Token.body_clientId req) as [[| c1 id] |] eqn:Hid;
    try (split; [discriminate | eauto]).
  destruct (Token.body_clientSecret req) as [[| c2 secret] |] eqn:Hsecret;
    try (split; [discriminate | eauto]).
  destruct (spotify _ _) as [m | upstream [data | m]] eqn:Hup;
    try (split; [discriminate | eauto]).
  - destruct (Api.ok upstream) eqn:Hok; simpl.
    + split; [| discriminate]. intros _.
      repeat split; auto.
      exists (String c1 id), (String c2 secret), upstream.
      repeat split; auto; discriminate.
    + split; [congruence | eauto].
  - destruct (Api.ok upstream) eqn:Hok; simpl.
    + split; [discriminate | eauto].
    + split; [congruence | eauto].
Qed.

(** X20. With both credentials filled in and the POST answered by the
    route, the component stores the token exactly when the
    credentials-grant request for the trimmed credentials returned a
    readable body with a status in 200..299.  In every other case, a
    network failure of the route included, the token stays and the message
    is the one about the Client ID and Secret. *)
Theorem requestAccessToken_via_route st spotify :
  trim (Token.clientId st) <> EmptyString ->
  trim (Token.clientSecret st) <> EmptyString ->
  let st' := Token.requestAccessToken st (Token.viaRoute spotify) in
  let refused :=
    Token.accessToken st' = Token.accessToken st
    /\ Token.tokenStatus st' = Token.NoStatus
    /\ Token.error st'
       = "Failed to request token. Check your Client ID and Secret." in
  match spotify (trim (Token.clientId st)) (trim (Token.clientSecret st)) with
  | Token.Response upstream (Token.JsonOk data) =>
      if Api.ok upstream
      then Token.accessToken st' = Token.access_token data
           /\ Token.error st' = EmptyString
      else refused
  | _ => refused
  end.
Proof.
  intros Hid Hsecret st' refused. subst st' refused.
  unfold Token.requestAccessToken.
  rewrite (nonempty_true _ Hid), (nonempty_true _ Hsecret).
  simpl negb. simpl orb. cbv iota.
  unfold Token.viaRoute, Token.handler. simpl Token.method.
  simpl Token.body_clientId. simpl Token.body_clientSecret.
  rewrite String.eqb_refl. simpl negb. cbv iota.
  destruct (trim (Token.clientId st)) as [| c1 id]; [congruence |].
  destruct (trim (Token.clientSecret st)) as [| c2 secret]; [congruence |].
  destruct (spotify _ _) as [m | upstream [data | m]].
  - simpl. repeat split.
  - destruct (Api.ok upstream) eqn:Hok; simpl.
    + split; reflexivity.
    + rewrite Hok. simpl. repeat split.
  - destruct (Api.ok upstream) eqn:Hok; simpl; [| rewrite Hok; simpl];
      repeat split.
Qed.

Lemma requestAccessToken_via_route_witness :
  let st := {| Token.clientId := " id "; Token.clientSecret := "secret";
               Token.accessToken := Some EmptyString;
               Token.error := EmptyString;
               Token.tokenStatus := Token.NoStatus |} in
  let spotify := fun id secret =>
    if (String.eqb id "id" && String.eqb secret "secret")%bool
    then Token.Response 200
           (Token.JsonOk {| Token.error_text := None;
                            Token.access_token := Some "BQD";
                            Token.expires_in := Some 3600 |})
    else Token.Response 400 (Token.JsonThrows "no body") in
  Token.accessToken (Token.requestAccessToken st (Token.viaRoute spotify))
  = Some "BQD"
  /\ Token.error (Token.requestAccessToken st (Token.viaRoute spotify))
     = EmptyString.
Proof.
  intros st spotify.
  refine (requestAccessToken_via_route st spotify _ _);
    vm_compute; discriminate.
Defined.

Lemma computeAvgPopularity_mean_witness :
  computeAvgPopularity
    [ {| Api.popularity := Some 40 |}; {| Api.popularity := None |} ]
  = meanPopularity
      [ {| Api.popularity := Some 40 |}; {| Api.popularity := None |} ].
Proof.
  apply computeAvgPopularity_mean.
  repeat (apply Forall_cons || apply Forall_nil); discriminate.
Defined.

(* ------------------------------------------------------------------ *)
(** ** Quoting without escaping *)



